(** * Stage schedule tracker

    A shallow embedding of the three modules of the show-schedule tracker:

    - [app/slip.py]: the slip calculator and the duration / variance
      formatters;
    - [app/websocket.py]: the connection manager that broadcasts to the
      operator consoles, first as each method runs by itself and then
      among the other tasks of the event loop;
    - [app/sheets.py]: the reader that turns spreadsheet rows into acts.

    Python integers are unbounded and are modelled by [Z].  Python strings
    are modelled by [string].  The definitions come first, module by
    module; the vocabulary of the properties and the data of the examples
    follow; the properties come last. *)

From Stdlib Require Import ZArith String Ascii Bool Lia.
From Stdlib Require Import DecimalString DecimalPos DecimalZ List Sorted.
From Equations Require Import Equations.
Import ListNotations.

Local Open Scope Z_scope.

(** ** Python built-ins used by the sources *)

(** [str(n)] and the [{n}] of an f-string for an integer [n]: the decimal
    numeral, with a leading minus sign for a negative number. *)
Definition str_of_int (n : Z) : string :=
  NilZero.string_of_int (Z.to_int n).

(** Truth value of a string: only the empty string is false. *)
Definition truthy_str (s : string) : bool :=
  match s with
  | EmptyString => false
  | String _ _ => true
  end.

(** Truth value of an optional object whose class defines neither
    [__bool__] nor [__len__] (a [datetime.time], since Python 3.5): only
    [None] is false. *)
Definition truthy {A : Type} (o : option A) : bool :=
  match o with
  | Some _ => true
  | None => false
  end.

(** [x or 0] for an optional integer [x]: [None] and [0] are false. *)
Definition or_zero (x : option Z) : Z :=
  match x with
  | Some v => if v =? 0 then 0 else v
  | None => 0
  end.

(** What a call of a built-in or of the reader does: it returns a value
    or it raises an exception.  The exceptions are those that the calls
    of [_parse_time] can raise. *)
Inductive exception : Type :=
| ValueError
| IndexError
| OverflowError.

Inductive result (A : Type) : Type :=
| Returns (a : A)
| Raises (e : exception).

Arguments Returns {A} a.
Arguments Raises {A} e.

(** ** The [datetime] module

    A [time] is a naive time of day.  A [datetime] is a count of
    microseconds on the proleptic day line (day ordinal times the length of
    a day, plus the time of day), and a [timedelta] is a signed count of
    microseconds; both are kept within Python's range by the callers
    (dates of the present, durations of less than a day). *)
Module Datetime.

Record time : Type := mk_time {
  hour : Z;
  minute : Z;
  second : Z;
  microsecond : Z
}.

Definition datetime : Type := Z.
Definition timedelta : Type := Z.

Definition US_PER_SECOND : Z := 1000000.
Definition US_PER_DAY : Z := 86400 * US_PER_SECOND.

(** Microseconds since midnight. *)
Definition time_us (t : time) : Z :=
  ((hour t * 60 + minute t) * 60 + second t) * US_PER_SECOND + microsecond t.

(** Whole seconds since midnight. *)
Definition time_seconds (t : time) : Z :=
  (hour t * 60 + minute t) * 60 + second t.

(** [dt.date()], as a day ordinal. *)
Definition date_of (dt : datetime) : Z := dt / US_PER_DAY.

(** [dt.time()]. *)
Definition time_of (dt : datetime) : time :=
  let us := dt mod US_PER_DAY in
  let s := us / US_PER_SECOND in
  mk_time (s / 3600) ((s mod 3600) / 60) (s mod 60) (us mod US_PER_SECOND).

(** [datetime.combine(d, t)]: when [d] is a [datetime] only its date is
    kept. *)
Definition combine (d : datetime) (t : time) : datetime :=
  date_of d * US_PER_DAY + time_us t.

(** [timedelta(seconds=n)] for an integer [n]. *)
Definition timedelta_of_seconds (n : Z) : timedelta := n * US_PER_SECOND.

(** [int(td.total_seconds())]: [total_seconds] divides the microseconds by
    a million and [int] drops the fraction, rounding toward zero.  For the
    spans that occur here (a few days at most) the division is exact
    enough in floating point for the truncation to be that of the exact
    quotient. *)
Definition int_total_seconds (td : timedelta) : Z := Z.quot td US_PER_SECOND.

(** Order on times of day, as Python compares naive [time] objects whose
    fields are within their ranges. *)
Definition time_le (a b : time) : Prop := time_us a <= time_us b.

(** The integers that a C [int] holds. *)
Definition fits_c_int (n : Z) : bool :=
  (- 2147483648 <=? n) && (n <=? 2147483647).

(** [time(hour, minute)].  The constructor, which is written in C, first
    converts its arguments to C [int]s and raises [OverflowError] when
    one of them does not fit; it then raises [ValueError] when a field is
    out of its range. *)
Definition new_time (h m : Z) : result time :=
  if negb (fits_c_int h) || negb (fits_c_int m) then Raises OverflowError
  else if (0 <=? h) && (h <? 24) && (0 <=? m) && (m <? 60)
       then Returns (mk_time h m 0 0)
       else Raises ValueError.

End Datetime.
Import Datetime.

(** ** [app/models.py]: the act record

    The constructor call in [app/sheets.py] gives the fields of [Act]. *)
Record Act : Type := mk_act {
  act_name : string;
  scheduled_start : time;
  scheduled_end : time;
  actual_start : option time;
  actual_end : option time;
  notes : option string
}.

(** The derived properties of an act that [calculate_slip] reads.  Their
    definitions live in [app/models.py]; the slip calculator is modelled
    over any definition of them. *)
Class ActProperties : Type := {
  scheduled_duration : Act -> Z;
  end_variance : Act -> option Z
}.

Module Models.

(** Modelled from the spec: the body of [Act.scheduled_duration] is in
    [app/models.py].  The data model gives it as [scheduled_end -
    scheduled_start], in seconds. *)
Definition scheduled_duration (a : Act) : Z :=
  int_total_seconds (time_us (scheduled_end a) - time_us (scheduled_start a)).

(** Modelled from the spec: the body of [Act.end_variance] is in
    [app/models.py].  The data model gives it as [actual_end -
    scheduled_end], in signed seconds, for an act that has ended. *)
Definition end_variance (a : Act) : option Z :=
  match actual_end a with
  | Some t => Some (int_total_seconds (time_us t - time_us (scheduled_end a)))
  | None => None
  end.

Definition properties : ActProperties :=
  Build_ActProperties scheduled_duration end_variance.

End Models.

(** ** [app/slip.py] *)
Module Slip.

(** *** Reading the wall clock

    [calculate_slip] reads the wall clock: once for the default of
    [current_time] and once in every call of [time_to_datetime].  A call is
    modelled against [clock], where [clock k] is the [datetime] that the
    [k]-th reading returns, and a computation threads the number of
    readings made so far. *)
Definition Clocked (A : Type) : Type := nat -> A * nat.

Definition ret {A : Type} (a : A) : Clocked A := fun k => (a, k).

Definition bind {A B : Type} (m : Clocked A) (f : A -> Clocked B) : Clocked B :=
  fun k => let (a, k') := m k in f a k'.

Declare Scope clocked_scope.
Delimit Scope clocked_scope with clocked.
Notation "x <- m ;; f" := (bind m (fun x => f))
  (at level 61, m at next level, right associativity) : clocked_scope.

(** The value a computation returns when it starts after [k] readings. *)
Definition value {A : Type} (m : Clocked A) (k : nat) : A := fst (m k).

Section Calculator.

Variable clock : nat -> datetime.
Context {props : ActProperties}.

(** [datetime.today()] and [datetime.now()]. *)
Definition datetime_today : Clocked datetime := fun k => (clock k, S k).
Definition datetime_now : Clocked datetime := fun k => (clock k, S k).

Local Open Scope clocked_scope.

Definition time_to_datetime (t : time) : Clocked datetime :=
  today <- datetime_today ;;
  ret (combine today t).

(** The body of the loop of [calculate_slip]: the slip after [act], given
    the slip before it. *)
Definition slip_after (act : Act) (slip : Z) : Clocked Z :=
  if truthy (actual_end act) then
    let end_variance := or_zero (end_variance act) in
    ret (Z.max 0 end_variance)
  else
    match actual_start act with
    | Some started =>
        if negb (truthy (actual_end act)) then
          actual_start_dt <- time_to_datetime started ;;
          let projected_end_dt :=
            actual_start_dt + timedelta_of_seconds (scheduled_duration act) in
          scheduled_end_dt <- time_to_datetime (scheduled_end act) ;;
          let projected_slip :=
            int_total_seconds (projected_end_dt - scheduled_end_dt) in
          ret (Z.max 0 projected_slip)
        else ret slip
    | None => ret slip
    end.

(** [for act in acts: ...], from a running [slip]. *)
Fixpoint slip_loop (acts : list Act) (slip : Z) : Clocked Z :=
  match acts with
  | [] => ret slip
  | act :: rest =>
      slip' <- slip_after act slip ;;
      slip_loop rest slip'
  end.

Definition calculate_slip (acts : list Act) (current_time : option time)
  : Clocked Z :=
  current_time <-
    match current_time with
    | None => now <- datetime_now ;; ret (time_of now)
    | Some t => ret t
    end ;;
  slip_loop acts 0.

End Calculator.

(** *** The formatters *)

(** The measure under which the recursive call of [format_duration]
    decreases: a negative argument calls on a non-negative one. *)
Definition sign_measure (seconds : Z) : nat :=
  if seconds <? 0 then 1%nat else 0%nat.

Equations? format_duration (seconds : Z) : string by wf (sign_measure seconds) lt :=
  format_duration seconds with Z_lt_dec seconds 0 => {
    | left _ => String "-" (format_duration (Z.abs seconds));
    | right _ =>
        let hours := seconds / 3600 in
        let remainder := seconds mod 3600 in
        let minutes := remainder / 60 in
        let secs := remainder mod 60 in
        if 0 <? hours then
          (str_of_int hours ++ "h " ++ str_of_int minutes ++ "m")%string
        else if 0 <? minutes then
          (str_of_int minutes ++ "m")%string
        else
          (str_of_int secs ++ "s")%string }.
Proof.
  unfold sign_measure.
  destruct (Z.ltb_spec seconds 0); [| lia].
  destruct (Z.ltb_spec (Z.abs seconds) 0); lia.
Qed.

Definition format_variance (seconds : option Z) : string :=
  match seconds with
  | None => EmptyString
  | Some seconds =>
      if seconds =? 0 then "on time"%string
      else if 0 <? seconds then String "+" (format_duration seconds)
      else format_duration seconds
  end.

End Slip.

(** ** The [json] module

    [json.dumps] on a dictionary whose keys are strings and whose values
    are strings or integers, with the default separators.  The strings
    that occur here are plain ASCII words, which [json.dumps] copies
    between quotes as they are. *)
Module Json.

Inductive value : Type :=
| Str (s : string)
| Int (n : Z).

(** The quotation mark. *)
Definition quote : string := String (ascii_of_nat 34) EmptyString.

Definition quoted (s : string) : string := (quote ++ s ++ quote)%string.

Definition dumps_value (v : value) : string :=
  match v with
  | Str s => quoted s
  | Int n => str_of_int n
  end.

Definition dumps_item (kv : string * value) : string :=
  (quoted (fst kv) ++ ": " ++ dumps_value (snd kv))%string.

Fixpoint join (sep : string) (parts : list string) : string :=
  match parts with
  | [] => EmptyString
  | [part] => part
  | part :: rest => (part ++ sep ++ join sep rest)%string
  end.

Definition dumps (d : list (string * value)) : string :=
  ("{" ++ join ", " (map dumps_item d) ++ "}")%string.

End Json.

(** ** [app/websocket.py], a method by itself

    The methods of the manager as they run when no other task touches
    the manager while they wait on the transport.  The module
    [Concurrent] below models them among other tasks; the two agree as
    long as the other tasks do nothing. *)
Module Websocket.

(** A connection handle.  The manager keys its dictionary by the identity
    of the [WebSocket] object, which a number stands for. *)
Definition WebSocket : Type := nat.
Bind Scope nat_scope with WebSocket.

(** An instance of a subclass of Python's [Exception], as [accept] and
    [send_text] raise them when the transport fails.  The cancellation of
    the calling task, which is no [Exception], is no failure of a send and
    is left out. *)
Inductive Exception : Type :=
| WebSocketDisconnect
| RuntimeError
| OtherException (name : string).

(** *** Dictionaries

    A [dict] keeps its items in insertion order and holds a key once. *)
Definition dict : Type := list (WebSocket * bool).

Definition keys (d : dict) : list WebSocket := map fst d.

(** [d[k] = v]: a key that is present keeps its place. *)
Fixpoint dict_set (d : dict) (k : WebSocket) (v : bool) : dict :=
  match d with
  | [] => [(k, v)]
  | (k', v') :: rest =>
      if Nat.eqb k' k then (k', v) :: rest else (k', v') :: dict_set rest k v
  end.

(** [d.pop(k, None)], for its effect on [d]. *)
Fixpoint dict_pop (d : dict) (k : WebSocket) : dict :=
  match d with
  | [] => []
  | (k', v') :: rest =>
      if Nat.eqb k' k then dict_pop rest k else (k', v') :: dict_pop rest k
  end.

(** *** The manager and its effects *)
Record ConnectionManager : Type := mk_manager {
  active_connections : dict;
  current_brightness : Z
}.

(** [ConnectionManager.__init__]. *)
Definition init : ConnectionManager := mk_manager [] 0.

(** What a method of the manager does, step by step: the calls on the
    transport with their outcome, and the updates of the manager's two
    fields. *)
Inductive event : Type :=
| Accept (ws : WebSocket) (ok : bool)
| SendText (ws : WebSocket) (text : string) (ok : bool)
| SetConnection (ws : WebSocket) (is_editor : bool)
| PopConnection (ws : WebSocket)
| SetBrightness (value : Z).

(** The manager together with the events so far, oldest first. *)
Record World : Type := mk_world {
  manager : ConnectionManager;
  history : list event
}.

(** The transport: whether [accept] and [send_text] raise, which may
    depend on everything that happened before. *)
Record Transport : Type := mk_transport {
  accept_raises : list event -> WebSocket -> option Exception;
  send_raises : list event -> WebSocket -> string -> option Exception
}.

(** A method either returns a value or raises; the world as it was left
    survives in both cases.  A method runs from start to end on the world
    it is given: what other tasks do to the manager while it waits on the
    transport is the matter of the module [Concurrent]. *)
Definition Hub (A : Type) : Type := World -> (Exception + A) * World.

Definition ret {A : Type} (a : A) : Hub A := fun w => (inr a, w).

Definition bind {A B : Type} (m : Hub A) (f : A -> Hub B) : Hub B :=
  fun w =>
    match m w with
    | (inl e, w') => (inl e, w')
    | (inr a, w') => f a w'
    end.

(** [try: m  except Exception: handler]. *)
Definition try_except {A : Type} (m : Hub A) (handler : Exception -> Hub A)
  : Hub A :=
  fun w =>
    match m w with
    | (inl e, w') => handler e w'
    | (inr a, w') => (inr a, w')
    end.

Declare Scope hub_scope.
Delimit Scope hub_scope with hub.
Notation "x <- m ;; f" := (bind m (fun x => f))
  (at level 61, m at next level, right associativity) : hub_scope.
Notation "m ;; f" := (bind m (fun _ => f))
  (at level 61, right associativity) : hub_scope.

Definition record (e : event) (w : World) : World :=
  mk_world (manager w) (history w ++ [e]).

Definition update (f : ConnectionManager -> ConnectionManager) (e : event)
  : Hub unit :=
  fun w => (inr tt, mk_world (f (manager w)) (history w ++ [e])).

(** [self.active_connections[websocket] = is_editor]. *)
Definition set_connection (ws : WebSocket) (is_editor : bool) : Hub unit :=
  update
    (fun m => mk_manager (dict_set (active_connections m) ws is_editor)
                         (current_brightness m))
    (SetConnection ws is_editor).

(** [self.active_connections.pop(websocket, None)]. *)
Definition pop_connection (ws : WebSocket) : Hub unit :=
  update
    (fun m => mk_manager (dict_pop (active_connections m) ws)
                         (current_brightness m))
    (PopConnection ws).

(** [self.current_brightness = value]. *)
Definition set_brightness (value : Z) : Hub unit :=
  update (fun m => mk_manager (active_connections m) value)
         (SetBrightness value).

(** The items of [self.active_connections] when the loop starts.  With
    no other task about, the dictionary does not change during the first
    loop of [_send_to_all], and the live view that the loop iterates
    gives these items one after the other. *)
Definition items : Hub (list (WebSocket * bool)) :=
  fun w => (inr (active_connections (manager w)), w).

Section Methods.

Variable transport : Transport.

(** [await websocket.accept()]. *)
Definition accept (ws : WebSocket) : Hub unit :=
  fun w =>
    match accept_raises transport (history w) ws with
    | Some e => (inl e, record (Accept ws false) w)
    | None => (inr tt, record (Accept ws true) w)
    end.

(** [await conn.send_text(message)]. *)
Definition send_text (ws : WebSocket) (message : string) : Hub unit :=
  fun w =>
    match send_raises transport (history w) ws message with
    | Some e => (inl e, record (SendText ws message false) w)
    | None => (inr tt, record (SendText ws message true) w)
    end.

Local Open Scope hub_scope.

Definition connect (websocket : WebSocket) (is_editor : bool) : Hub unit :=
  accept websocket ;;
  set_connection websocket is_editor.

Definition disconnect (websocket : WebSocket) : Hub unit :=
  pop_connection websocket.

(** The first loop of [_send_to_all], over the items that are left, with
    the list [disconnected] as it stands.  [if message:] lets through a
    message that is neither [None] nor the empty string. *)
Fixpoint send_loop (get_message : WebSocket -> bool -> option string)
  (todo : list (WebSocket * bool)) (disconnected : list WebSocket)
  : Hub (list WebSocket) :=
  match todo with
  | [] => ret disconnected
  | (conn, is_editor) :: rest =>
      let message := get_message conn is_editor in
      disconnected' <-
        match message with
        | Some text =>
            if truthy_str text then
              try_except
                (send_text conn text ;; ret disconnected)
                (fun _ => ret (disconnected ++ [conn]))
            else ret disconnected
        | None => ret disconnected
        end ;;
      send_loop get_message rest disconnected'
  end.

(** The second loop of [_send_to_all]. *)
Fixpoint disconnect_loop (disconnected : list WebSocket) : Hub unit :=
  match disconnected with
  | [] => ret tt
  | conn :: rest => disconnect conn ;; disconnect_loop rest
  end.

Definition _send_to_all (get_message : WebSocket -> bool -> option string)
  : Hub unit :=
  todo <- items ;;
  disconnected <- send_loop get_message todo [] ;;
  disconnect_loop disconnected.

Definition broadcast (message : string) : Hub unit :=
  _send_to_all (fun c e => Some message).

Definition broadcast_schedule (viewer_html editor_html : string) : Hub unit :=
  _send_to_all
    (fun c is_editor => Some (if is_editor then editor_html else viewer_html)).

Definition brightness_event (value : Z) : list (string * Json.value) :=
  [("type"%string, Json.Str "brightness"); ("value"%string, Json.Int value)].

Definition broadcast_brightness (value : Z) : Hub unit :=
  set_brightness value ;;
  broadcast (Json.dumps (brightness_event value)).

End Methods.

End Websocket.

(** ** [app/websocket.py], among other tasks

    The methods of the manager are coroutines.  While one of them waits
    on the transport, at [await websocket.accept()] or at
    [await conn.send_text(message)], the event loop runs other tasks,
    and these may call the manager themselves: the dictionary of the live
    connections and the brightness may have changed when the method goes
    on.  This module models the methods together with what other tasks do
    meanwhile, and the first loop of [_send_to_all] as it is written: an
    iteration, step by step, over the live dictionary. *)
Module Concurrent.

Import Websocket.

(** What another task does to the manager: the assignment of a
    [connect], the [pop] of a [disconnect] or of the second loop of
    [_send_to_all], or the assignment of a [broadcast_brightness]. *)
Inductive change : Type :=
| Assigns (ws : WebSocket) (is_editor : bool)
| Pops (ws : WebSocket)
| SetsBrightness (value : Z).

(** What a step of an iterator over a dictionary does. *)
Inductive step : Type :=
| Yields (entry : WebSocket * bool)
| Stops
| RaisesRuntimeError.

(** The surroundings of a method.
    - [meanwhile h] lists, in order, the changes that other tasks make
      to the manager while the method waits on the transport, [h] being
      the events so far.
    - [next_after_changes h n] is the step of an iterator over the live
      dictionary that has given [n] entries, once keys were added and
      removed under it and the dictionary has the size it had when the
      iteration began, [h] being the events so far.  Python leaves that
      step open: the iteration may raise [RuntimeError] or fail to go
      over all entries. *)
Record Surroundings : Type := mk_surroundings {
  meanwhile : list event -> list change;
  next_after_changes : list event -> nat -> step
}.

(** The world together with the number of keys added to and removed from
    the live dictionary so far, by whatever task. *)
Record Scene : Type := mk_scene {
  world : World;
  key_changes : nat
}.

(** A method either returns a value or raises, and leaves a scene. *)
Definition Task (A : Type) : Type := Scene -> (Exception + A) * Scene.

Definition ret {A : Type} (a : A) : Task A := fun s => (inr a, s).

Definition raise {A : Type} (e : Exception) : Task A := fun s => (inl e, s).

Definition bind {A B : Type} (m : Task A) (f : A -> Task B) : Task B :=
  fun s =>
    match m s with
    | (inl e, s') => (inl e, s')
    | (inr a, s') => f a s'
    end.

(** [try: m  except Exception: handler]. *)
Definition try_except {A : Type} (m : Task A) (handler : Exception -> Task A)
  : Task A :=
  fun s =>
    match m s with
    | (inl e, s') => handler e s'
    | (inr a, s') => (inr a, s')
    end.

Declare Scope task_scope.
Delimit Scope task_scope with task.
Notation "x <- m ;; f" := (bind m (fun x => f))
  (at level 61, m at next level, right associativity) : task_scope.
Notation "m ;; f" := (bind m (fun _ => f))
  (at level 61, right associativity) : task_scope.

(** [k in d]. *)
Definition has_key (d : dict) (k : WebSocket) : bool :=
  existsb (Nat.eqb k) (keys d).

(** A change of the manager, with the count of the keys added and
    removed: an assignment adds a key that is not there, and a [pop]
    removes a key that is. *)
Definition apply_change (state : ConnectionManager * nat) (c : change)
  : ConnectionManager * nat :=
  let (m, n) := state in
  let d := active_connections m in
  match c with
  | Assigns ws is_editor =>
      (mk_manager (dict_set d ws is_editor) (current_brightness m),
       if has_key d ws then n else S n)
  | Pops ws =>
      (mk_manager (dict_pop d ws) (current_brightness m),
       if has_key d ws then S n else n)
  | SetsBrightness value => (mk_manager d value, n)
  end.

(** A change that the method itself makes, with its event. *)
Definition make (c : change) (e : event) : Task unit :=
  fun s =>
    let (m, n) := apply_change (manager (world s), key_changes s) c in
    (inr tt, mk_scene (mk_world m (history (world s) ++ [e])) n).

(** [self.active_connections[websocket] = is_editor]. *)
Definition set_connection (ws : WebSocket) (is_editor : bool) : Task unit :=
  make (Assigns ws is_editor) (SetConnection ws is_editor).

(** [self.active_connections.pop(websocket, None)]. *)
Definition pop_connection (ws : WebSocket) : Task unit :=
  make (Pops ws) (PopConnection ws).

(** [self.current_brightness = value]. *)
Definition set_brightness (value : Z) : Task unit :=
  make (SetsBrightness value) (SetBrightness value).

(** An iterator over the items of the live dictionary: the count of key
    changes and the size of the dictionary when the iteration began. *)
Record iterator : Type := mk_iterator {
  began_at : nat;
  size : nat
}.

(** [iter(self.active_connections.items())], which the [for] statement
    calls once: the view is of the live dictionary, not a copy. *)
Definition items : Task iterator :=
  fun s =>
    (inr (mk_iterator (key_changes s)
                      (length (active_connections (manager (world s))))),
     s).

Section Methods.

Variable surroundings : Surroundings.
Variable transport : Transport.

(** The other tasks take their turn. *)
Definition others_run : Task unit :=
  fun s =>
    let (m, n) :=
      fold_left apply_change (meanwhile surroundings (history (world s)))
                (manager (world s), key_changes s) in
    (inr tt, mk_scene (mk_world m (history (world s))) n).

(** A call on the transport, which leaves the manager as it is. *)
Definition on_transport {A : Type} (call : Hub A) : Task A :=
  fun s =>
    let (outcome, w) := call (world s) in
    (outcome, mk_scene w (key_changes s)).

Local Open Scope task_scope.

(** [await call]: the other tasks run while the call is pending. *)
Definition await {A : Type} (call : Hub A) : Task A :=
  others_run ;; on_transport call.

(** [await websocket.accept()]. *)
Definition accept (ws : WebSocket) : Task unit :=
  await (Websocket.accept transport ws).

(** [await conn.send_text(message)]. *)
Definition send_text (ws : WebSocket) (message : string) : Task unit :=
  await (Websocket.send_text transport ws message).

(** [next(it)] on an iterator that has given [given] entries; [None] is
    the end of the iteration.  As long as no key was added or removed
    since the iteration began, the iterator gives the entries in their
    order, with the value they have now.  Once keys were added or
    removed, it raises [RuntimeError] when the size of the dictionary is
    no longer what it was, and makes the step that Python leaves open
    otherwise. *)
Definition next (it : iterator) (given : nat)
  : Task (option (WebSocket * bool)) :=
  fun s =>
    let d := active_connections (manager (world s)) in
    if Nat.eqb (key_changes s) (began_at it) then (inr (nth_error d given), s)
    else if negb (Nat.eqb (length d) (size it)) then (inl RuntimeError, s)
    else
      match next_after_changes surroundings (history (world s)) given with
      | Yields entry => (inr (Some entry), s)
      | Stops => (inr None, s)
      | RaisesRuntimeError => (inl RuntimeError, s)
      end.

Definition connect (websocket : WebSocket) (is_editor : bool) : Task unit :=
  accept websocket ;;
  set_connection websocket is_editor.

Definition disconnect (websocket : WebSocket) : Task unit :=
  pop_connection websocket.

(** The first loop of [_send_to_all], with the list [disconnected] as it
    stands, on an iterator that may give [left] more entries: an iterator
    gives no more entries than the dictionary had when the iteration
    began, and raises [RuntimeError] when it finds one more.  The call of
    [next] is made by the [for] statement, outside the [try] statement:
    what it raises ends [_send_to_all], before the second loop. *)
Fixpoint send_loop (get_message : WebSocket -> bool -> option string)
  (it : iterator) (left : nat) (disconnected : list WebSocket)
  : Task (list WebSocket) :=
  entry <- next it (size it - left) ;;
  match entry with
  | None => ret disconnected
  | Some (conn, is_editor) =>
      match left with
      | O => raise RuntimeError
      | S left' =>
          let message := get_message conn is_editor in
          disconnected' <-
            match message with
            | Some text =>
                if truthy_str text then
                  try_except
                    (send_text conn text ;; ret disconnected)
                    (fun _ => ret (disconnected ++ [conn]))
                else ret disconnected
            | None => ret disconnected
            end ;;
          send_loop get_message it left' disconnected'
      end
  end.

(** The second loop of [_send_to_all], over the list [disconnected],
    which no other task holds. *)
Fixpoint disconnect_loop (disconnected : list WebSocket) : Task unit :=
  match disconnected with
  | [] => ret tt
  | conn :: rest => disconnect conn ;; disconnect_loop rest
  end.

Definition _send_to_all (get_message : WebSocket -> bool -> option string)
  : Task unit :=
  it <- items ;;
  disconnected <- send_loop get_message it (size it) [] ;;
  disconnect_loop disconnected.

Definition broadcast (message : string) : Task unit :=
  _send_to_all (fun c e => Some message).

Definition broadcast_schedule (viewer_html editor_html : string) : Task unit :=
  _send_to_all
    (fun c is_editor => Some (if is_editor then editor_html else viewer_html)).

Definition broadcast_brightness (value : Z) : Task unit :=
  set_brightness value ;;
  broadcast (Json.dumps (brightness_event value)).

End Methods.

End Concurrent.

(** ** [app/sheets.py] *)

(** The string built-ins that [_parse_time] calls.  The reader is modelled
    over any definition of them.
    - [strip s] is [s.strip()];
    - [split s sep] is [s.split(sep)] for a separator of one character;
    - [int_of_str s] is [int(s)], with [None] for a [ValueError]. *)
Class StrBuiltins : Type := {
  strip : string -> string;
  split : string -> ascii -> list string;
  int_of_str : string -> option Z
}.

(** The worksheet that [_get_sheet] returns, with the two methods of
    gspread that the store calls.  The store is modelled over any
    definition of them.
    - [get_all_values sheet] is [sheet.get_all_values()];
    - [update_cell sheet row col value] is the worksheet after
      [sheet.update_cell(row, col, value)], rows and columns counted
      from 1.
    The calls are taken to return, and the worksheet to change by these
    calls alone. *)
Class Worksheet : Type := {
  worksheet : Type;
  get_all_values : worksheet -> list (list string);
  update_cell : worksheet -> Z -> Z -> string -> worksheet
}.

Module Sheets.

(** Column indices, counted from 1. *)
Definition COL_ARTIST_NAME : Z := 2.
Definition COL_SCHEDULED_START : Z := 4.
Definition COL_SCHEDULED_END : Z := 5.
Definition COL_ACTUAL_START : Z := 6.
Definition COL_ACTUAL_END : Z := 7.

(** The header is on row 5 and the data start on row 6. *)
Definition HEADER_ROW : Z := 5.

(** A call that raises ends the function that makes it, unless a [try]
    statement handles the exception: the calls of a function are chained
    with [and_then]. *)
Definition and_then {A B : Type} (r : result A) (f : A -> result B)
  : result B :=
  match r with
  | Returns a => f a
  | Raises e => Raises e
  end.

Declare Scope result_scope.
Delimit Scope result_scope with result.
Notation "x <- r ;; f" := (and_then r (fun x => f))
  (at level 61, r at next level, right associativity) : result_scope.

Section Reader.

Context {builtins : StrBuiltins}.

Local Open Scope result_scope.

(** [l[i]], which raises [IndexError] past the end of the list. *)
Definition item {A : Type} (l : list A) (i : nat) : result A :=
  match nth_error l i with
  | Some x => Returns x
  | None => Raises IndexError
  end.

(** [int(s)], which raises [ValueError] on a text that is no numeral. *)
Definition int (s : string) : result Z :=
  match int_of_str s with
  | Some n => Returns n
  | None => Raises ValueError
  end.

(** [_parse_time]: [None] for an empty or blank cell and whenever the
    [try] block raises [ValueError] or [IndexError]; any other exception
    of the block, the [OverflowError] of [time], is not handled and is
    raised to the caller. *)
Definition _parse_time (time_str : string) : result (option time) :=
  if negb (truthy_str time_str) || String.eqb (strip time_str) EmptyString
  then Returns None
  else
    let attempt : result time :=
      let parts := split (strip time_str) ":"%char in
      part0 <- item parts 0 ;;
      h <- int part0 ;;
      part1 <- item parts 1 ;;
      m <- int part1 ;;
      new_time h m in
    match attempt with
    | Returns t => Returns (Some t)
    | Raises ValueError | Raises IndexError => Returns None
    | Raises e => Raises e
    end.

(** [_get_cell]: the cell in column [col] of [row], or the empty string
    when the row is too short. *)
Definition _get_cell (row : list string) (col : Z) : string :=
  let idx := col - 1 in
  if idx <? Z.of_nat (List.length row)
  then nth (Z.to_nat idx) row EmptyString
  else EmptyString.

(** The loop of [get_schedule] over the rows that are left, with the list
    [acts] as it stands.  The two scheduled times of a row are parsed
    before the row is kept or skipped, and the two actual times of a row
    that is kept after that; an exception of [_parse_time] ends the
    loop. *)
Fixpoint rows_loop (data_rows : list (list string)) (acts : list Act)
  : result (list Act) :=
  match data_rows with
  | [] => Returns acts
  | row :: rest =>
      let act_name := _get_cell row COL_ARTIST_NAME in
      scheduled_start <- _parse_time (_get_cell row COL_SCHEDULED_START) ;;
      scheduled_end <- _parse_time (_get_cell row COL_SCHEDULED_END) ;;
      if negb (truthy_str act_name) || negb (truthy scheduled_start)
         || negb (truthy scheduled_end)
      then rows_loop rest acts
      else
        match scheduled_start, scheduled_end with
        | Some s, Some e =>
            actual_start <- _parse_time (_get_cell row COL_ACTUAL_START) ;;
            actual_end <- _parse_time (_get_cell row COL_ACTUAL_END) ;;
            let act := mk_act act_name s e actual_start actual_end None in
            rows_loop rest (acts ++ [act])
        | _, _ => rows_loop rest acts
        end
  end.

(** [get_schedule], as a function of what [sheet.get_all_values()]
    returned. *)
Definition get_schedule (all_values : list (list string))
  : result (list Act) :=
  let data_rows := skipn (Z.to_nat HEADER_ROW) all_values in
  rows_loop data_rows [].

(** [t.strftime("%H:%M")] writes the hour and the minute on two digits
    each. *)
Definition two_digits (n : Z) : string :=
  if n <? 10 then String "0" (str_of_int n) else str_of_int n.

(** [_format_time]. *)
Definition _format_time (t : option time) : string :=
  match t with
  | None => EmptyString
  | Some t => (two_digits (hour t) ++ ":" ++ two_digits (minute t))%string
  end.

(** The loop of [get_act] over the acts that are left. *)
Fixpoint first_named (acts : list Act) (name : string) : option Act :=
  match acts with
  | [] => None
  | act :: rest =>
      if String.eqb (act_name act) name then Some act
      else first_named rest name
  end.

(** [get_act], as a function of what [sheet.get_all_values()] returned;
    [name] is the argument [act_name]. *)
Definition get_act (all_values : list (list string)) (name : string)
  : result (option Act) :=
  acts <- get_schedule all_values ;;
  Returns (first_named acts name).

(** The loop of [_find_row] over the rows that are left, [i] being the
    index that [enumerate] gives the first of them. *)
Fixpoint find_row_loop (data_rows : list (list string)) (i : Z)
  (name : string) : option Z :=
  match data_rows with
  | [] => None
  | row :: rest =>
      if String.eqb (_get_cell row COL_ARTIST_NAME) name
      then Some (i + HEADER_ROW + 1)
      else find_row_loop rest (i + 1) name
  end.

(** [_find_row], as a function of what [sheet.get_all_values()]
    returned. *)
Definition _find_row (all_values : list (list string)) (name : string)
  : option Z :=
  let data_rows := skipn (Z.to_nat HEADER_ROW) all_values in
  find_row_loop data_rows 0 name.

End Reader.

(** *** The updates

    Each function gives what the Python function returns or raises
    together with the worksheet as it leaves it: an exception of the
    final [get_act] comes after the cells were written. *)
Section Store.

Context {builtins : StrBuiltins} {sheets : Worksheet}.

Definition update_actual_start (sheet : worksheet) (name : string)
  (actual_time : time) : result (option Act) * worksheet :=
  let row_num := _find_row (get_all_values sheet) name in
  match row_num with
  | None => (Returns None, sheet)
  | Some row_num =>
      let sheet :=
        update_cell sheet row_num COL_ACTUAL_START
                    (_format_time (Some actual_time)) in
      (get_act (get_all_values sheet) name, sheet)
  end.

Definition update_actual_end (sheet : worksheet) (name : string)
  (actual_time : time) : result (option Act) * worksheet :=
  let row_num := _find_row (get_all_values sheet) name in
  match row_num with
  | None => (Returns None, sheet)
  | Some row_num =>
      let sheet :=
        update_cell sheet row_num COL_ACTUAL_END
                    (_format_time (Some actual_time)) in
      (get_act (get_all_values sheet) name, sheet)
  end.

Definition clear_actual_times (sheet : worksheet) (name : string)
  : result (option Act) * worksheet :=
  let row_num := _find_row (get_all_values sheet) name in
  match row_num with
  | None => (Returns None, sheet)
  | Some row_num =>
      let sheet := update_cell sheet row_num COL_ACTUAL_START EmptyString in
      let sheet := update_cell sheet row_num COL_ACTUAL_END EmptyString in
      (get_act (get_all_values sheet) name, sheet)
  end.

End Store.

(** *** The built-ins on plain ASCII text

    A definition of the built-ins for cells of ASCII text whose numerals
    are written with digits only; it serves to run the reader on concrete
    sheets. *)
Module Plain.

Definition is_space (c : ascii) : bool :=
  let n := nat_of_ascii c in
  ((9 <=? n) && (n <=? 13) || (28 <=? n) && (n <=? 32))%nat.

Fixpoint lstrip (s : string) : string :=
  match s with
  | EmptyString => EmptyString
  | String c rest => if is_space c then lstrip rest else s
  end.

Fixpoint reverse (s acc : string) : string :=
  match s with
  | EmptyString => acc
  | String c rest => reverse rest (String c acc)
  end.

Definition strip (s : string) : string :=
  reverse (lstrip (reverse (lstrip s) EmptyString)) EmptyString.

(** The parts of [s] between the occurrences of [sep]; [part] holds the
    characters of the current part, last first. *)
Fixpoint split_from (s : string) (sep : ascii) (part : string) : list string :=
  match s with
  | EmptyString => [reverse part EmptyString]
  | String c rest =>
      if Ascii.eqb c sep
      then reverse part EmptyString :: split_from rest sep EmptyString
      else split_from rest sep (String c part)
  end.

Definition split (s : string) (sep : ascii) : list string :=
  split_from s sep EmptyString.

Definition digit (c : ascii) : option Z :=
  let n := nat_of_ascii c in
  if ((48 <=? n) && (n <=? 57))%nat then Some (Z.of_nat n - 48) else None.

Fixpoint digits (s : string) (acc : Z) : option Z :=
  match s with
  | EmptyString => Some acc
  | String c rest =>
      match digit c with
      | Some d => digits rest (10 * acc + d)
      | None => None
      end
  end.

Definition int_of_str (s : string) : option Z :=
  match strip s with
  | EmptyString => None
  | String c rest =>
      if Ascii.eqb c "-" then
        match rest with
        | EmptyString => None
        | _ => option_map Z.opp (digits rest 0)
        end
      else if Ascii.eqb c "+" then
        match rest with
        | EmptyString => None
        | _ => digits rest 0
        end
      else digits (String c rest) 0
  end.

Definition builtins : StrBuiltins := Build_StrBuiltins strip split int_of_str.

End Plain.

(** *** A worksheet that is a grid of texts

    A definition of the worksheet as the list of its rows, which hands
    back every cell as it was written; it serves to run the store on
    concrete sheets. *)
Module Grid.

(** [l] with [x] at index [n], filled up with [filler] when it is too
    short. *)
Fixpoint set_nth {A : Type} (filler : A) (n : nat) (x : A) (l : list A)
  : list A :=
  match n, l with
  | O, [] => [x]
  | O, _ :: rest => x :: rest
  | S n', [] => filler :: set_nth filler n' x []
  | S n', y :: rest => y :: set_nth filler n' x rest
  end.

Definition update_cell (grid : list (list string)) (row col : Z)
  (value : string) : list (list string) :=
  let r := Z.to_nat (row - 1) in
  let c := Z.to_nat (col - 1) in
  set_nth [] r (set_nth EmptyString c value (nth r grid [])) grid.

Definition sheets : Worksheet :=
  Build_Worksheet (list (list string)) (fun grid => grid) update_cell.

End Grid.

End Sheets.

(** * Vocabulary of the properties *)

(** ** Vocabulary of the slip properties *)
Module SlipSpec.

(** Every reading of the clock falls on the same calendar day. *)
Definition one_day (clock : nat -> datetime) : Prop :=
  forall i j, date_of (clock i) = date_of (clock j).

(** An act has start or end data: it has ended or it has started. *)
Definition has_data (a : Act) : bool :=
  truthy (actual_end a) || truthy (actual_start a).

(** The end variance of an act, [0] when it has none. *)
Definition end_variance_or_0 {props : ActProperties} (a : Act) : Z :=
  match end_variance a with
  | Some v => v
  | None => 0
  end.

(** The projected slip of an act that started at [started]: the seconds
    from its scheduled end to [started] plus its scheduled duration. *)
Definition projected_slip {props : ActProperties} (a : Act) (started : time) : Z :=
  int_total_seconds
    (time_us started + timedelta_of_seconds (scheduled_duration a)
     - time_us (scheduled_end a)).

(** What an act with data contributes to the slip. *)
Definition contribution {props : ActProperties} (a : Act) : Z :=
  match actual_end a, actual_start a with
  | Some _, _ => Z.max 0 (end_variance_or_0 a)
  | None, Some started => Z.max 0 (projected_slip a started)
  | None, None => 0
  end.

(** The slip that the latest act with data leaves, from a slip [slip]
    that stands when no act has data. *)
Definition latest_contribution {props : ActProperties} (acts : list Act)
  (slip : Z) : Z :=
  fold_left (fun slip a => if has_data a then contribution a else slip)
            acts slip.

(** A time of day without a fraction of a second. *)
Definition whole_seconds (t : time) : Prop := microsecond t = 0.

End SlipSpec.

(** ** Vocabulary of the hub properties *)
Module HubSpec.

Import Websocket.

(** The live set of a world. *)
Definition live (w : World) : dict := active_connections (manager w).

(** A dictionary holds each key once. *)
Definition distinct_keys (d : dict) : Prop := NoDup (keys d).

(** The events of [w'] that came after those of [w]. *)
Definition events_since (w w' : World) : list event :=
  skipn (length (history w)) (history w').

Definition is_send (e : event) : bool :=
  match e with
  | SendText _ _ _ => true
  | _ => false
  end.

(** The texts of the calls of [send_text] on [ws], in order, whatever
    their outcome. *)
Fixpoint sends_to (ws : WebSocket) (events : list event) : list string :=
  match events with
  | [] => []
  | SendText c text _ :: rest =>
      if Nat.eqb c ws then text :: sends_to ws rest else sends_to ws rest
  | _ :: rest => sends_to ws rest
  end.


(** The connections on which a call of [send_text] raised, in order. *)
Fixpoint failed_of (events : list event) : list WebSocket :=
  match events with
  | [] => []
  | SendText c _ false :: rest => c :: failed_of rest
  | _ :: rest => failed_of rest
  end.

(** What [get_message] selects for the entries of [d] under the key [ws]
    and lets through the test [if message:]. *)
Fixpoint payloads (get_message : WebSocket -> bool -> option string)
  (ws : WebSocket) (d : dict) : list string :=
  match d with
  | [] => []
  | (c, is_editor) :: rest =>
      if Nat.eqb c ws then
        match get_message c is_editor with
        | Some text =>
            if truthy_str text then text :: payloads get_message ws rest
            else payloads get_message ws rest
        | None => payloads get_message ws rest
        end
      else payloads get_message ws rest
  end.








End HubSpec.

(** ** Calls on the manager, one after the other *)
Module HubCalls.

Import Websocket HubSpec.

(** A call of one of the public methods of the manager. *)
Inductive call : Type :=
| Connect (websocket : WebSocket) (is_editor : bool)
| Disconnect (websocket : WebSocket)
| Broadcast (message : string)
| BroadcastSchedule (viewer_html editor_html : string)
| BroadcastBrightness (value : Z).

Definition perform (transport : Transport) (c : call) : Hub unit :=
  match c with
  | Connect websocket is_editor => connect transport websocket is_editor
  | Disconnect websocket => disconnect websocket
  | Broadcast message => broadcast transport message
  | BroadcastSchedule viewer_html editor_html =>
      broadcast_schedule transport viewer_html editor_html
  | BroadcastBrightness value => broadcast_brightness transport value
  end.

(** The world after the calls, made one after the other by callers that
    go on after a call that raised. *)
Fixpoint perform_all (transport : Transport) (calls : list call) (w : World)
  : World :=
  match calls with
  | [] => w
  | c :: rest => perform_all transport rest (snd (perform transport c w))
  end.

(** The connections on which [send_text] was called, in the order of the
    calls. *)
Fixpoint recipients (events : list event) : list WebSocket :=
  match events with
  | [] => []
  | SendText c _ _ :: rest => c :: recipients rest
  | _ :: rest => recipients rest
  end.

(** [get_message] selects a payload for the entry that passes the test
    [if message:]. *)
Definition has_payload (get_message : WebSocket -> bool -> option string)
  (entry : WebSocket * bool) : bool :=
  match get_message (fst entry) (snd entry) with
  | Some text => truthy_str text
  | None => false
  end.

(** The entry is not under one of the keys [gone]. *)
Definition not_among (gone : list WebSocket) (entry : WebSocket * bool)
  : bool :=
  negb (existsb (Nat.eqb (fst entry)) gone).

End HubCalls.

(** ** Vocabulary of the properties among other tasks *)
Module TaskSpec.

Import Websocket Concurrent.

(** What is seen of an outcome by a caller that keeps no count of the
    key changes: the value or the exception, and the world. *)
Definition seen {A : Type} (outcome : (Exception + A) * Scene)
  : (Exception + A) * World :=
  (fst outcome, world (snd outcome)).



(** A scene [s'] follows a scene [s]: the count of key changes did not
    go down, and the live set has as many entries as it had when the
    count is what it was. *)
Definition follows (s s' : Scene) : Prop :=
  (key_changes s <= key_changes s')%nat
  /\ (key_changes s' = key_changes s ->
      length (active_connections (manager (world s')))
      = length (active_connections (manager (world s)))).

(** An outcome that is no exception but the [RuntimeError] of an
    iteration under which keys were added or removed: the count of key
    changes is beyond [stamp]. *)
Definition raised_by_change {A : Type} (stamp : nat)
  (outcome : (Exception + A) * Scene) : Prop :=
  match fst outcome with
  | inr _ => True
  | inl e => e = RuntimeError /\ (stamp < key_changes (snd outcome))%nat
  end.

End TaskSpec.

(** ** Vocabulary of the sheet properties *)
Module SheetsSpec.

Import Sheets.

(** The acts follow one another by ascending scheduled start. *)
Definition sorted_by_scheduled_start (acts : list Act) : Prop :=
  StronglySorted
    (fun a b => time_le (scheduled_start a) (scheduled_start b)) acts.

(** The act that a data row holds: the row needs a name and scheduled
    start and end times that parse.  Reading the row raises when one of
    its scheduled times does, or, for a row that holds an act, one of
    its actual times. *)
Definition act_of_row {builtins : StrBuiltins} (row : list string)
  : result (option Act) :=
  (s <- _parse_time (_get_cell row COL_SCHEDULED_START) ;;
   e <- _parse_time (_get_cell row COL_SCHEDULED_END) ;;
   match s, e with
   | Some s, Some e =>
       if truthy_str (_get_cell row COL_ARTIST_NAME) then
         started <- _parse_time (_get_cell row COL_ACTUAL_START) ;;
         ended <- _parse_time (_get_cell row COL_ACTUAL_END) ;;
         Returns (Some (mk_act (_get_cell row COL_ARTIST_NAME) s e
                               started ended None))
       else Returns None
   | _, _ => Returns None
   end)%result.

(** The acts of the rows that hold one, in the order of the rows; the
    first row that cannot be read raises. *)
Fixpoint acts_in_row_order {builtins : StrBuiltins}
  (rows : list (list string)) : result (list Act) :=
  match rows with
  | [] => Returns []
  | row :: rest =>
      (act <- act_of_row row ;;
       acts <- acts_in_row_order rest ;;
       Returns (match act with
                | Some act => act :: acts
                | None => acts
                end))%result
  end.

(** Every time cell of the rows can be read: no call of [_parse_time]
    on a cell of the columns D to G raises. *)
Definition times_can_be_read {builtins : StrBuiltins}
  (rows : list (list string)) : Prop :=
  forall row col,
    In row rows ->
    In col [COL_SCHEDULED_START; COL_SCHEDULED_END;
            COL_ACTUAL_START; COL_ACTUAL_END] ->
    exists t, _parse_time (_get_cell row col) = Returns t.

End SheetsSpec.

(** ** Vocabulary of the store properties *)
Module StoreSpec.

Import Sheets.

(** The hour and the minute of a time are within their ranges. *)
Definition hour_minute_valid (t : time) : Prop :=
  0 <= hour t < 24 /\ 0 <= minute t < 60.

(** A time cut to the minute, as a cell of the sheet holds it. *)
Definition to_the_minute (t : time) : time :=
  mk_time (hour t) (minute t) 0 0.

(** The text of a time of day on two digits each, [HH:MM]. *)
Definition clock_text (h m : Z) : string :=
  (two_digits h ++ ":" ++ two_digits m)%string.

(** What Python's built-ins do on the texts [HH:MM]: [strip] finds
    nothing to take off, [split] at the colon gives the two numerals, and
    [int] reads a numeral of two digits as its number. *)
Definition reads_clock_text (builtins : StrBuiltins) : Prop :=
  forall h m,
    0 <= h < 24 -> 0 <= m < 60 ->
    strip (clock_text h m) = clock_text h m
    /\ split (clock_text h m) ":" = [two_digits h; two_digits m]
    /\ int_of_str (two_digits h) = Some h
    /\ int_of_str (two_digits m) = Some m.

(** The cell of a grid in the row of index [r], counted from 0, and the
    column [col], counted from 1. *)
Definition cell (grid : list (list string)) (r : nat) (col : Z) : string :=
  _get_cell (nth r grid []) col.

(** The worksheet hands back what was written: after [update_cell] on a
    row that it has, it has as many rows as before, the cell written holds
    the value, and every other cell holds what it held. *)
Definition stores_text (sheets : Worksheet) : Prop :=
  forall (sheet : worksheet) (row col : Z) (value : string),
    1 <= row <= Z.of_nat (length (get_all_values sheet)) ->
    1 <= col ->
    length (get_all_values (update_cell sheet row col value))
    = length (get_all_values sheet)
    /\ forall r c,
        1 <= c ->
        cell (get_all_values (update_cell sheet row col value)) r c
        = if (Z.of_nat r =? row - 1) && (c =? col) then value
          else cell (get_all_values sheet) r c.

(** The act [a] with other actual times. *)
Definition with_actual_times (a : Act) (started ended : option time) : Act :=
  mk_act (act_name a) (scheduled_start a) (scheduled_end a) started ended
         (notes a).

End StoreSpec.

(** ** Data for the examples *)
Module Examples.

Import Websocket.

(** A clock that stands still at eight in the evening of a day of the
    present. *)
Definition evening : nat -> datetime :=
  fun _ => 739000 * US_PER_DAY + 72000 * US_PER_SECOND.

(** A clock whose first reading falls in the last second of a day and
    whose later readings fall on the day after: a call that is made as
    midnight passes. *)
Definition over_midnight : nat -> datetime :=
  fun k =>
    match k with
    | O => 739000 * US_PER_DAY + 86399 * US_PER_SECOND
    | S _ => 739001 * US_PER_DAY
    end.

Definition at_time (h m s : Z) : time := mk_time h m s 0.



(** An act in progress that started five minutes late. *)
Definition headliner : Act :=
  mk_act "Headliner" (at_time 19 30 0) (at_time 21 0 0)
         (Some (at_time 19 35 0)) None None.




(** A transport on which every send to connection [2] raises. *)
Definition lossy : Transport :=
  mk_transport (fun _ _ => None)
               (fun _ ws _ => if Nat.eqb ws 2 then Some WebSocketDisconnect
                              else None).

(** The manager as created, with no event yet. *)
Definition fresh : World := mk_world init [].


(** The world after two viewers, [2] and [3], and then an editor, [1],
    connected to a fresh manager over the lossy transport. *)
Definition two_viewers : World :=
  snd (connect lossy 3%nat false (snd (connect lossy 2%nat false fresh))).

Definition full_house : World := snd (connect lossy 1%nat true two_viewers).

(** A world as a scene in which no key change was counted yet. *)
Definition scene (w : World) : Concurrent.Scene := Concurrent.mk_scene w 0.


(** Surroundings in which another task disconnects connection [3] while
    the first call on the transport after the events of the full house
    is pending. *)
Definition leaving : Concurrent.Surroundings :=
  Concurrent.mk_surroundings
    (fun so_far =>
       if Nat.eqb (length so_far) (length (history full_house))
       then [Concurrent.Pops 3%nat] else [])
    (fun _ _ => Concurrent.Stops).

(** A sheet of seven columns whose two data rows are not in the order of
    their starts: four rows above the header, the header on row 5, and
    the data from row 6 on. *)
Definition blank : list string := repeat EmptyString 7.

Definition header : list string :=
  [EmptyString; "artist name"; EmptyString; "scheduled start";
   "scheduled end"; "actual time on"; "actual time off"]%string.

Definition unordered_sheet : list (list string) :=
  [blank; blank; blank; blank; header;
   [EmptyString; "Late Show"; EmptyString; "22:00"; "23:00";
    EmptyString; EmptyString]%string;
   [EmptyString; "Early Show"; EmptyString; "20:00"; "21:00";
    EmptyString; EmptyString]%string].

(** The unordered sheet with an hour beyond the range of a C [int] in
    the scheduled start of its first data row. *)
Definition overflowing_sheet : list (list string) :=
  [blank; blank; blank; blank; header;
   [EmptyString; "Late Show"; EmptyString; "2147483648:00"; "23:00";
    EmptyString; EmptyString]%string;
   [EmptyString; "Early Show"; EmptyString; "20:00"; "21:00";
    EmptyString; EmptyString]%string].

(** A time with seconds, seven minutes past eight in the evening. *)
Definition seven_past_eight : time := mk_time 20 7 45 0.

(** The acts of the two data rows of the unordered sheet. *)
Definition late_show : Act :=
  mk_act "Late Show" (at_time 22 0 0) (at_time 23 0 0) None None None.

Definition early_show : Act :=
  mk_act "Early Show" (at_time 20 0 0) (at_time 21 0 0) None None None.

End Examples.

(** * Properties *)

(** ** The slip calculator *)
Section SlipProperties.

Import Slip SlipSpec.

Variable clock : nat -> datetime.
Context {props : ActProperties}.

Lemma or_zero_default (x : option Z) :
  or_zero x = match x with Some v => v | None => 0 end.
Proof.
  destruct x as [v|]; simpl; [| reflexivity].
  destruct (Z.eqb_spec v 0); congruence.
Qed.

(** The two datetimes of the projection differ by the times of day alone
    when both readings fall on one day. *)
Lemma projection_one_day (d1 d2 : datetime) (started ending : time) (dur : Z) :
  date_of d1 = date_of d2 ->
  combine d1 started + timedelta_of_seconds dur - combine d2 ending
  = time_us started + timedelta_of_seconds dur - time_us ending.
Proof.
  unfold combine. intros ->. ring.
Qed.

(** The loop body on a completed act. *)
Lemma slip_after_completed (act : Act) (ended : time) (slip : Z) (k : nat) :
  actual_end act = Some ended ->
  slip_after clock act slip k = (Z.max 0 (end_variance_or_0 act), k).
Proof.
  intros He. unfold slip_after, end_variance_or_0. rewrite He. simpl.
  rewrite or_zero_default. reflexivity.
Qed.

(** The loop body on an act in progress: two readings of the clock. *)
Lemma slip_after_in_progress (act : Act) (started : time) (slip : Z) (k : nat) :
  actual_start act = Some started ->
  actual_end act = None ->
  slip_after clock act slip k
  = (Z.max 0
       (int_total_seconds
          (combine (clock k) started
           + timedelta_of_seconds (scheduled_duration act)
           - combine (clock (S k)) (scheduled_end act))),
     S (S k)).
Proof.
  intros Hs He. unfold slip_after. rewrite He, Hs. reflexivity.
Qed.

(** The loop body on an act that has not started. *)
Lemma slip_after_not_started (act : Act) (slip : Z) (k : nat) :
  has_data act = false ->
  slip_after clock act slip k = (slip, k).
Proof.
  unfold has_data, slip_after. intros H.
  apply orb_false_iff in H as [He Hs]. rewrite He.
  destruct (actual_start act); [discriminate | reflexivity].
Qed.

Lemma slip_after_with_data (act : Act) (slip : Z) (k : nat) :
  one_day clock ->
  has_data act = true ->
  fst (slip_after clock act slip k) = contribution act.
Proof.
  intros Hday Hd. unfold contribution.
  destruct (actual_end act) as [ended|] eqn:He.
  - rewrite (slip_after_completed act ended slip k He). reflexivity.
  - destruct (actual_start act) as [started|] eqn:Hs.
    + rewrite (slip_after_in_progress act started slip k Hs He). simpl.
      unfold projected_slip.
      rewrite (projection_one_day _ _ _ _ _ (Hday k (S k))). reflexivity.
    + unfold has_data in Hd. rewrite He, Hs in Hd. discriminate.
Qed.

Lemma slip_after_nonneg (act : Act) (slip : Z) (k : nat) :
  0 <= slip -> 0 <= fst (slip_after clock act slip k).
Proof.
  intros Hslip. unfold slip_after.
  destruct (truthy (actual_end act)); simpl; [lia |].
  destruct (actual_start act); simpl; [lia | exact Hslip].
Qed.

Lemma slip_loop_cons (act : Act) (rest : list Act) (slip : Z) (k : nat) :
  slip_loop clock (act :: rest) slip k
  = slip_loop clock rest (fst (slip_after clock act slip k))
                         (snd (slip_after clock act slip k)).
Proof.
  simpl. unfold bind. destruct (slip_after clock act slip k). reflexivity.
Qed.


Lemma slip_loop_nonneg (acts : list Act) (slip : Z) (k : nat) :
  0 <= slip -> 0 <= fst (slip_loop clock acts slip k).
Proof.
  revert slip k. induction acts as [| act rest IH]; intros slip k Hslip.
  - exact Hslip.
  - rewrite slip_loop_cons. apply IH, slip_after_nonneg, Hslip.
Qed.


Lemma calculate_slip_unfold (acts : list Act) (current_time : option time) (k : nat) :
  value (calculate_slip clock acts current_time) k
  = fst (slip_loop clock acts 0
           (match current_time with None => S k | Some _ => k end)).
Proof.
  unfold value, calculate_slip, bind. destruct current_time; reflexivity.
Qed.

(** On a clock that stays on one day the loop is the fold that keeps the
    contribution of the latest act with data. *)
Lemma slip_loop_one_day (acts : list Act) (slip : Z) (k : nat) :
  one_day clock ->
  fst (slip_loop clock acts slip k) = latest_contribution acts slip.
Proof.
  intros Hday. revert slip k.
  induction acts as [| act rest IH]; intros slip k.
  - reflexivity.
  - rewrite slip_loop_cons, IH. simpl. f_equal.
    destruct (has_data act) eqn:Hd.
    + apply slip_after_with_data; assumption.
    + rewrite (slip_after_not_started act slip k Hd). reflexivity.
Qed.

Lemma latest_contribution_no_data (acts : list Act) (slip : Z) :
  Forall (fun a => has_data a = false) acts ->
  latest_contribution acts slip = slip.
Proof.
  intros H. revert slip. induction H as [| act rest Hact _ IH]; intros slip.
  - reflexivity.
  - simpl. rewrite Hact. apply IH.
Qed.

Lemma latest_contribution_last (before after : list Act) (a : Act) (slip : Z) :
  has_data a = true ->
  Forall (fun b => has_data b = false) after ->
  latest_contribution (before ++ a :: after) slip = contribution a.
Proof.
  intros Ha Hafter. unfold latest_contribution.
  rewrite fold_left_app. simpl. rewrite Ha.
  apply latest_contribution_no_data, Hafter.
Qed.

(** C3. For every list of acts and every reference time, whatever the
    clock reads, [calculate_slip] returns an integer that is not
    negative. *)
Theorem calculate_slip_nonneg (acts : list Act) (current_time : option time) (k : nat) :
  0 <= value (calculate_slip clock acts current_time) k.
Proof.
  rewrite calculate_slip_unfold. apply slip_loop_nonneg. lia.
Qed.

Lemma int_total_seconds_whole (n : Z) :
  int_total_seconds (n * US_PER_SECOND) = n.
Proof.
  unfold int_total_seconds, US_PER_SECOND. apply Z.quot_mul. lia.
Qed.

Lemma time_us_whole (t : time) :
  whole_seconds t -> time_us t = time_seconds t * US_PER_SECOND.
Proof.
  unfold whole_seconds, time_us, time_seconds. intros ->. ring.
Qed.

Lemma projected_slip_whole (a : Act) (started : time) :
  whole_seconds started ->
  whole_seconds (scheduled_end a) ->
  projected_slip a started
  = time_seconds started + scheduled_duration a - time_seconds (scheduled_end a).
Proof.
  intros Hs He. unfold projected_slip, timedelta_of_seconds.
  rewrite (time_us_whole _ Hs), (time_us_whole _ He).
  rewrite <- int_total_seconds_whole. f_equal. ring.
Qed.



(** On a clock that stays on one day the result is a function of the
    acts alone. *)
Lemma calculate_slip_one_day (acts : list Act) (current_time : option time)
  (k : nat) :
  one_day clock ->
  value (calculate_slip clock acts current_time) k = latest_contribution acts 0.
Proof.
  intros Hday. rewrite calculate_slip_unfold. apply slip_loop_one_day, Hday.
Qed.

(** The loop body on an act that has started and has not ended.  It sets
    the running slip, whatever it was, from two readings of the clock:
    the seconds from the scheduled end, on the day of the second reading,
    to the actual start, on the day of the first, plus the scheduled
    duration, or zero when that is negative.  When the clock stays on one
    day this is the projected slip of the act, [300] for an act that
    started five minutes late and keeps its scheduled duration, and the
    rest of the loop goes on from that value. *)
Theorem slip_after_act_in_progress (act : Act) (started : time) (slip : Z)
  (k : nat) :
  actual_start act = Some started ->
  actual_end act = None ->
  fst (slip_after clock act slip k)
  = Z.max 0
      (int_total_seconds
         (combine (clock k) started
          + timedelta_of_seconds (scheduled_duration act)
          - combine (clock (S k)) (scheduled_end act)))
  /\ (forall rest,
      slip_loop clock (act :: rest) slip k
      = slip_loop clock rest (fst (slip_after clock act slip k)) (S (S k)))
  /\ (one_day clock ->
      fst (slip_after clock act slip k) = Z.max 0 (projected_slip act started))
  /\ (one_day clock ->
      forall before rest current_time k0,
      value (calculate_slip clock (before ++ act :: rest) current_time) k0
      = latest_contribution rest (Z.max 0 (projected_slip act started)))
  /\ (one_day clock ->
      whole_seconds started ->
      whole_seconds (scheduled_end act) ->
      fst (slip_after clock act slip k)
      = Z.max 0 (time_seconds started + scheduled_duration act
                 - time_seconds (scheduled_end act)))
  /\ (one_day clock ->
      whole_seconds started ->
      whole_seconds (scheduled_end act) ->
      time_seconds started = time_seconds (scheduled_start act) + 300 ->
      scheduled_duration act
      = time_seconds (scheduled_end act) - time_seconds (scheduled_start act) ->
      fst (slip_after clock act slip k) = 300).
Proof.
  intros Hs He.
  pose proof (slip_after_in_progress act started slip k Hs He) as Hstep.
  assert (Hday : one_day clock ->
                 fst (slip_after clock act slip k)
                 = Z.max 0 (projected_slip act started)).
  { intros Hday. rewrite Hstep. simpl. unfold projected_slip.
    rewrite (projection_one_day _ _ _ _ _ (Hday _ _)). reflexivity. }
  repeat split.
  - rewrite Hstep. reflexivity.
  - intros rest. rewrite slip_loop_cons. rewrite Hstep at 2. reflexivity.
  - exact Hday.
  - intros Hd before rest current_time k0.
    rewrite (calculate_slip_one_day _ current_time k0 Hd).
    unfold latest_contribution. rewrite fold_left_app. simpl.
    unfold has_data, contribution. rewrite He, Hs. reflexivity.
  - intros Hd Hws Hwe. rewrite (Hday Hd), projected_slip_whole by assumption.
    reflexivity.
  - intros Hd Hws Hwe Hlate Hdur.
    rewrite (Hday Hd), projected_slip_whole by assumption. lia.
Qed.

End SlipProperties.


(** ** The formatters *)
Section FormatterProperties.

Import Slip.
Local Open Scope string_scope.
Local Open Scope Z_scope.

(** The two equations of [format_duration]. *)
Lemma format_duration_negative (seconds : Z) :
  seconds < 0 ->
  format_duration seconds = String "-" (format_duration (Z.abs seconds)).
Proof.
  intros Hneg. rewrite format_duration_equation_1.
  destruct (Z_lt_dec seconds 0) as [Hlt | Hge]; [reflexivity | contradiction].
Qed.

Lemma format_duration_nonnegative (seconds : Z) :
  0 <= seconds ->
  format_duration seconds
  = if 0 <? seconds / 3600 then
      str_of_int (seconds / 3600) ++ "h "
      ++ str_of_int (seconds mod 3600 / 60) ++ "m"
    else if 0 <? seconds mod 3600 / 60 then
      str_of_int (seconds mod 3600 / 60) ++ "m"
    else str_of_int ((seconds mod 3600) mod 60) ++ "s".
Proof.
  intros Hpos. rewrite format_duration_equation_1.
  destruct (Z_lt_dec seconds 0) as [Hneg | Hge]; [lia | reflexivity].
Qed.

Lemma mod_3600_mod_60 (seconds : Z) :
  (seconds mod 3600) mod 60 = seconds mod 60.
Proof.
  apply Z.mod_mod_divide. exists 60. reflexivity.
Qed.

(** C7. [format_duration] of a negative number is a minus sign followed by
    [format_duration] of its absolute value.  For a number that is not
    negative, with [h] its whole hours, [m] the whole minutes left and [s]
    the seconds left, it is "[h]h [m]m" when [h > 0], else "[m]m" when
    [m > 0], else "[s]s".  In particular it gives "0s" for [0], "2m" for
    [125], "1h 2m" for [3725] and "-40s" for [-40]. *)
Theorem format_duration_spec :
  (forall seconds,
      seconds < 0 ->
      format_duration seconds = "-" ++ format_duration (Z.abs seconds))
  /\ (forall seconds,
      0 <= seconds ->
      let h := seconds / 3600 in
      let m := (seconds mod 3600) / 60 in
      let s := seconds mod 60 in
      (0 < h ->
       format_duration seconds = str_of_int h ++ "h " ++ str_of_int m ++ "m")
      /\ (h <= 0 -> 0 < m -> format_duration seconds = str_of_int m ++ "m")
      /\ (h <= 0 -> m <= 0 -> format_duration seconds = str_of_int s ++ "s"))
  /\ format_duration 0 = "0s"
  /\ format_duration 125 = "2m"
  /\ format_duration 3725 = "1h 2m"
  /\ format_duration (-40) = "-40s".
Proof.
  split; [| split].
  - intros seconds Hneg. apply format_duration_negative, Hneg.
  - intros seconds Hpos h m s. subst h m s.
    rewrite (format_duration_nonnegative seconds Hpos), mod_3600_mod_60.
    repeat split.
    + intros Hh. apply Z.ltb_lt in Hh. rewrite Hh. reflexivity.
    + intros Hh Hm. apply Z.ltb_ge in Hh. apply Z.ltb_lt in Hm.
      rewrite Hh, Hm. reflexivity.
    + intros Hh Hm. apply Z.ltb_ge in Hh. apply Z.ltb_ge in Hm.
      rewrite Hh, Hm. reflexivity.
  - repeat split; reflexivity.
Qed.

(** C8. [format_variance] gives the empty string for [None], "on time"
    for [0], a plus sign followed by [format_duration] for a positive
    number and [format_duration], which starts with the minus sign, for a
    negative number.  In particular it gives "+45s" for [45]. *)
Theorem format_variance_spec :
  format_variance None = ""
  /\ format_variance (Some 0) = "on time"
  /\ (forall seconds,
      0 < seconds ->
      format_variance (Some seconds) = "+" ++ format_duration seconds)
  /\ (forall seconds,
      seconds < 0 ->
      format_variance (Some seconds) = format_duration seconds
      /\ format_duration seconds = "-" ++ format_duration (- seconds))
  /\ format_variance (Some 45) = "+45s".
Proof.
  split; [reflexivity |]. split; [reflexivity |]. split; [| split].
  - intros seconds Hpos. unfold format_variance.
    destruct (Z.eqb_spec seconds 0); [lia |].
    destruct (Z.ltb_spec 0 seconds); [reflexivity | lia].
  - intros seconds Hneg. split.
    + unfold format_variance.
      destruct (Z.eqb_spec seconds 0); [lia |].
      destruct (Z.ltb_spec 0 seconds); [lia | reflexivity].
    + rewrite (format_duration_negative seconds Hneg).
      replace (Z.abs seconds) with (- seconds) by lia. reflexivity.
  - reflexivity.
Qed.

End FormatterProperties.

(** ** The connection manager *)
Section HubProperties.

Import Websocket HubSpec.

Variable transport : Transport.

(** *** Dictionaries *)

Lemma in_dict_pop (d : dict) (k c : WebSocket) (e : bool) :
  In (c, e) (dict_pop d k) <-> In (c, e) d /\ c <> k.
Proof.
  induction d as [| [k' v'] rest IH]; simpl.
  - tauto.
  - destruct (Nat.eqb_spec k' k) as [-> | Hne]; simpl; rewrite IH.
    + split.
      * tauto.
      * intros [[Heq | Hin] Hck]; [| tauto].
        inversion Heq. subst. contradiction.
    + split.
      * intros [Heq | [Hin Hck]]; [| tauto].
        inversion Heq. subst. tauto.
      * tauto.
Qed.

Lemma in_keys (d : dict) (c : WebSocket) :
  In c (keys d) <-> exists e, In (c, e) d.
Proof.
  unfold keys. rewrite in_map_iff. split.
  - intros [[c' e] [Hc Hin]]. simpl in Hc. subst. exists e. exact Hin.
  - intros [e Hin]. exists (c, e). split; [reflexivity | exact Hin].
Qed.


(** *** What the history records *)

Lemma in_sends_to (events : list event) (c : WebSocket) (text : string) :
  In text (sends_to c events) <-> exists ok, In (SendText c text ok) events.
Proof.
  induction events as [| ev rest IH]; simpl.
  - split; [tauto | intros [_ []]].
  - destruct ev as [ws ok | ws t ok | ws ed | ws | v];
      try (rewrite IH; split;
           [ intros [ok' H]; exists ok'; right; exact H
           | intros [ok' [H | H]]; [discriminate | exists ok'; exact H] ]).
    destruct (Nat.eqb_spec ws c) as [-> | Hne]; simpl; rewrite IH.
    + split.
      * intros [-> | [ok' H]]; [exists ok; left; reflexivity |].
        exists ok'. right. exact H.
      * intros [ok' [H | H]]; [inversion H; left; reflexivity |].
        right. exists ok'. exact H.
    + split.
      * intros [ok' H]. exists ok'. right. exact H.
      * intros [ok' [H | H]]; [inversion H; contradiction |].
        exists ok'. exact H.
Qed.




(** *** The two loops of [_send_to_all] *)

Lemma world_eta (w : World) : mk_world (manager w) (history w) = w.
Proof. destruct w. reflexivity. Qed.

(** The first loop returns, leaves the manager as it is, only sends, sends
    what [get_message] selects, and collects the connections whose send
    raised. *)
Lemma send_loop_spec (get_message : WebSocket -> bool -> option string)
  (todo : list (WebSocket * bool)) (disconnected : list WebSocket) (w : World) :
  exists sends,
    send_loop transport get_message todo disconnected w
    = (inr (disconnected ++ failed_of sends),
       mk_world (manager w) (history w ++ sends))
    /\ Forall (fun e => is_send e = true) sends
    /\ (forall c, sends_to c sends = payloads get_message c todo).
Proof.
  revert disconnected w.
  induction todo as [| [conn is_editor] rest IH]; intros disconnected w.
  - exists []. simpl. rewrite !app_nil_r, world_eta. repeat split. constructor.
  - simpl. unfold bind at 1.
    destruct (get_message conn is_editor) as [text |] eqn:Hm;
      [destruct (truthy_str text) eqn:Ht |].
    + unfold try_except, bind, send_text.
      destruct (send_raises transport (history w) conn text) as [exn |];
        simpl;
        match goal with
        | |- context [send_loop _ _ rest ?d ?w1] =>
            destruct (IH d w1) as [sends [Hrun [Hsends Hto]]]
        end;
        match goal with
        | |- context [SendText conn text ?ok] =>
            exists (SendText conn text ok :: sends)
        end;
        rewrite Hrun; simpl; rewrite <- !app_assoc; simpl;
        (split; [reflexivity |]);
        (split; [constructor; [reflexivity | exact Hsends] |]);
        intros c; rewrite Hto;
        destruct (Nat.eqb conn c); reflexivity.
    + simpl. destruct (IH disconnected w) as [sends [Hrun [Hsends Hto]]].
      exists sends. rewrite Hrun. repeat split; [exact Hsends |].
      intros c. rewrite Hto. destruct (Nat.eqb conn c); reflexivity.
    + simpl. destruct (IH disconnected w) as [sends [Hrun [Hsends Hto]]].
      exists sends. rewrite Hrun. repeat split; [exact Hsends |].
      intros c. rewrite Hto. destruct (Nat.eqb conn c); reflexivity.
Qed.

(** The second loop returns and pops the connections in order. *)
Lemma disconnect_loop_spec (disconnected : list WebSocket) (w : World) :
  disconnect_loop disconnected w
  = (inr tt,
     mk_world
       (mk_manager (fold_left dict_pop disconnected (live w))
                   (current_brightness (manager w)))
       (history w ++ map PopConnection disconnected)).
Proof.
  revert w. induction disconnected as [| conn rest IH]; intros w.
  - simpl. rewrite app_nil_r. destruct w as [[d b] h]. reflexivity.
  - simpl. unfold bind, disconnect, pop_connection, update.
    rewrite IH. simpl. rewrite <- app_assoc. reflexivity.
Qed.

(** [_send_to_all] as a whole. *)
Lemma send_to_all_spec (get_message : WebSocket -> bool -> option string)
  (w : World) :
  exists sends,
    _send_to_all transport get_message w
    = (inr tt,
       mk_world
         (mk_manager (fold_left dict_pop (failed_of sends) (live w))
                     (current_brightness (manager w)))
         (history w ++ sends ++ map PopConnection (failed_of sends)))
    /\ Forall (fun e => is_send e = true) sends
    /\ (forall c, sends_to c sends = payloads get_message c (live w)).
Proof.
  destruct (send_loop_spec get_message (live w) [] w)
    as [sends [Hrun [Hsends Hto]]].
  exists sends. split; [| split; assumption].
  unfold _send_to_all, bind, items. fold (live w). rewrite Hrun.
  rewrite disconnect_loop_spec. simpl. rewrite <- app_assoc. reflexivity.
Qed.





Lemma events_since_app (w w' : World) (events : list event) :
  history w' = history w ++ events -> events_since w w' = events.
Proof.
  unfold events_since. intros ->.
  rewrite skipn_app, skipn_all, Nat.sub_diag. reflexivity.
Qed.

Lemma sends_to_app (c : WebSocket) (l1 l2 : list event) :
  sends_to c (l1 ++ l2) = sends_to c l1 ++ sends_to c l2.
Proof.
  induction l1 as [| ev l1 IH]; simpl; [reflexivity |].
  destruct ev; try exact IH.
  destruct (Nat.eqb ws c); simpl; rewrite IH; reflexivity.
Qed.

Lemma sends_to_pops (c : WebSocket) (gone : list WebSocket) :
  sends_to c (map PopConnection gone) = [].
Proof.
  induction gone as [| k gone IH]; simpl; [reflexivity | exact IH].
Qed.

Lemma payloads_absent (get_message : WebSocket -> bool -> option string)
  (d : dict) (c : WebSocket) :
  ~ In c (keys d) -> payloads get_message c d = [].
Proof.
  induction d as [| [k v] rest IH]; simpl; [reflexivity |].
  intros Hnot. destruct (Nat.eqb_spec k c) as [-> | Hne]; [tauto |].
  apply IH. tauto.
Qed.

Lemma payloads_distinct (get_message : WebSocket -> bool -> option string)
  (d : dict) (c : WebSocket) (e : bool) :
  distinct_keys d ->
  In (c, e) d ->
  payloads get_message c d
  = match get_message c e with
    | Some text => if truthy_str text then [text] else []
    | None => []
    end.
Proof.
  unfold distinct_keys.
  induction d as [| [k v] rest IH]; simpl; [tauto |].
  intros Hnodup Hin. inversion Hnodup as [| ? ? Hk Hrest]. subst.
  destruct Hin as [Heq | Hin].
  - inversion Heq. subst. rewrite Nat.eqb_refl.
    rewrite (payloads_absent get_message rest c Hk).
    destruct (get_message c e) as [text |]; [| reflexivity].
    destruct (truthy_str text); reflexivity.
  - destruct (Nat.eqb_spec k c) as [-> | Hne].
    + exfalso. apply Hk, in_keys. exists e. exact Hin.
    + apply IH; assumption.
Qed.

(** The sends of [_send_to_all], connection by connection. *)
Lemma send_to_all_sends (get_message : WebSocket -> bool -> option string)
  (w : World) (c : WebSocket) :
  sends_to c (events_since w (snd (_send_to_all transport get_message w)))
  = payloads get_message c (live w).
Proof.
  destruct (send_to_all_spec get_message w) as [sends [Hrun [_ Hto]]].
  rewrite Hrun. simpl.
  rewrite (events_since_app w _ (sends ++ map PopConnection (failed_of sends)))
    by reflexivity.
  rewrite sends_to_app, sends_to_pops, app_nil_r. apply Hto.
Qed.

(** [broadcast_brightness] is a broadcast after the update of the stored
    value. *)
Lemma broadcast_brightness_unfold (value : Z) (w : World) :
  broadcast_brightness transport value w
  = broadcast transport (Json.dumps (brightness_event value))
      (mk_world (mk_manager (live w) value)
                (history w ++ [SetBrightness value])).
Proof. reflexivity. Qed.


(** *** Connecting *)

Lemma in_dict_set_same (d : dict) (c : WebSocket) (e : bool) :
  In (c, e) (dict_set d c e).
Proof.
  induction d as [| [k v] rest IH]; simpl; [left; reflexivity |].
  destruct (Nat.eqb_spec k c) as [-> | Hne]; [left; reflexivity |].
  right. exact IH.
Qed.

Lemma keys_dict_set (d : dict) (c k : WebSocket) (e : bool) :
  In k (keys (dict_set d c e)) <-> k = c \/ In k (keys d).
Proof.
  induction d as [| [k' v] rest IH]; simpl.
  - intuition congruence.
  - destruct (Nat.eqb_spec k' c) as [-> | Hne]; simpl.
    + intuition congruence.
    + rewrite IH. tauto.
Qed.

Lemma dict_set_distinct (d : dict) (c : WebSocket) (e : bool) :
  distinct_keys d -> distinct_keys (dict_set d c e).
Proof.
  unfold distinct_keys.
  induction d as [| [k v] rest IH]; simpl; intros Hnodup.
  - constructor; [tauto | constructor].
  - inversion Hnodup as [| ? ? Hk Hrest]. subst.
    destruct (Nat.eqb_spec k c) as [-> | Hne]; simpl.
    + constructor; assumption.
    + constructor; [| apply IH; exact Hrest].
      intros Hin. apply keys_dict_set in Hin as [Heq | Hin]; tauto.
Qed.


(** What a call of [connect] that returns leaves behind. *)
Lemma connect_returns (c : WebSocket) (is_editor : bool) (w : World) :
  fst (connect transport c is_editor w) = inr tt ->
  snd (connect transport c is_editor w)
  = mk_world
      (mk_manager (dict_set (live w) c is_editor)
                  (current_brightness (manager w)))
      (history w ++ [Accept c true; SetConnection c is_editor]).
Proof.
  unfold connect, bind, accept.
  destruct (accept_raises transport (history w) c); simpl; [discriminate |].
  intros _. rewrite <- app_assoc. reflexivity.
Qed.


(** By itself, after [connect(c, is_editor=True)] returned,
    [broadcast_schedule(viewer_html, editor_html)] calls [send_text] on
    [c] once, with [editor_html], when [editor_html] is not empty, and not
    at all when it is empty; on every live connection it calls it once
    with the page of its role when that page is not empty, and not at all
    when it is empty; and it calls it on no other connection. *)
Lemma broadcast_schedule_by_role (w : World) (c : WebSocket)
  (viewer_html editor_html : string) :
  distinct_keys (live w) ->
  fst (connect transport c true w) = inr tt ->
  let w1 := snd (connect transport c true w) in
  let sent :=
    events_since w1
      (snd (broadcast_schedule transport viewer_html editor_html w1)) in
  In (c, true) (live w1)
  /\ sends_to c sent = (if truthy_str editor_html then [editor_html] else [])
  /\ (forall c',
      In (c', false) (live w1) ->
      sends_to c' sent = if truthy_str viewer_html then [viewer_html] else [])
  /\ (forall c',
      In (c', true) (live w1) ->
      sends_to c' sent = if truthy_str editor_html then [editor_html] else [])
  /\ (forall c', ~ In c' (keys (live w1)) -> sends_to c' sent = []).
Proof.
  intros Hdistinct Hret w1 sent.
  assert (Hlive : live w1 = dict_set (live w) c true).
  { unfold w1. rewrite (connect_returns c true w Hret). reflexivity. }
  assert (Hd1 : distinct_keys (live w1)).
  { rewrite Hlive. apply dict_set_distinct, Hdistinct. }
  assert (Hc : In (c, true) (live w1)).
  { rewrite Hlive. apply in_dict_set_same. }
  assert (Hrole : forall c' role,
             In (c', role) (live w1) ->
             sends_to c' sent
             = if truthy_str (if role then editor_html else viewer_html)
               then [if role then editor_html else viewer_html] else []).
  { intros c' role Hin. unfold sent, broadcast_schedule.
    rewrite send_to_all_sends.
    rewrite (payloads_distinct _ (live w1) c' role Hd1 Hin). reflexivity. }
  split; [exact Hc |]. split; [exact (Hrole c true Hc) |].
  split; [| split].
  - intros c' Hin. exact (Hrole c' false Hin).
  - intros c' Hin. exact (Hrole c' true Hin).
  - intros c' Hnot. unfold sent, broadcast_schedule.
    rewrite send_to_all_sends. apply payloads_absent, Hnot.
Qed.

(** *** The keys of the live set stay distinct *)

Lemma keys_dict_pop (d : dict) (k c : WebSocket) :
  In c (keys (dict_pop d k)) <-> In c (keys d) /\ c <> k.
Proof.
  rewrite !in_keys. split.
  - intros [e He]. apply in_dict_pop in He as [He Hne].
    split; [exists e; exact He | exact Hne].
  - intros [[e He] Hne]. exists e. apply in_dict_pop. tauto.
Qed.

Lemma dict_pop_distinct (d : dict) (k : WebSocket) :
  distinct_keys d -> distinct_keys (dict_pop d k).
Proof.
  unfold distinct_keys.
  induction d as [| [k' v] rest IH]; simpl; intros Hnodup; [constructor |].
  inversion Hnodup as [| ? ? Hk Hrest]. subst.
  destruct (Nat.eqb_spec k' k) as [-> | Hne]; [apply IH, Hrest |].
  simpl. constructor; [| apply IH, Hrest].
  intros Hin. apply keys_dict_pop in Hin. tauto.
Qed.

Lemma dict_pop_absent (d : dict) (k : WebSocket) :
  ~ In k (keys d) -> dict_pop d k = d.
Proof.
  induction d as [| [k' v] rest IH]; simpl; intros Hnot; [reflexivity |].
  destruct (Nat.eqb_spec k' k) as [-> | Hne]; [tauto |].
  rewrite IH; [reflexivity | tauto].
Qed.

(** [disconnect] on a connection that is not live leaves the live set as
    it is and does not raise. *)
Lemma disconnect_unknown (c : WebSocket) (w : World) :
  ~ In c (keys (live w)) ->
  fst (disconnect c w) = inr tt /\ live (snd (disconnect c w)) = live w.
Proof.
  intros Hnot. split; [reflexivity |]. simpl. apply dict_pop_absent, Hnot.
Qed.

(** The manager as created holds each key once, and every method keeps it
    that way. *)
Lemma distinct_keys_kept (w : World) :
  distinct_keys (live w) ->
  (forall c is_editor,
      distinct_keys (live (snd (connect transport c is_editor w))))
  /\ (forall c, distinct_keys (live (snd (disconnect c w))))
  /\ (forall get_message,
      distinct_keys (live (snd (_send_to_all transport get_message w)))).
Proof.
  intros Hd. split; [| split].
  - intros c is_editor. unfold connect, bind, accept.
    destruct (accept_raises transport (history w) c); simpl; [exact Hd |].
    apply dict_set_distinct, Hd.
  - intros c. simpl. apply dict_pop_distinct, Hd.
  - intros get_message.
    destruct (send_to_all_spec get_message w) as [sends [Hrun _]].
    rewrite Hrun. unfold live at 1. simpl.
    generalize (failed_of sends) as gone. revert Hd.
    generalize (live w) as d.
    intros d Hd gone. revert d Hd.
    induction gone as [| k gone IH]; intros d Hd; simpl; [exact Hd |].
    apply IH, dict_pop_distinct, Hd.
Qed.

Lemma init_distinct_keys : distinct_keys (active_connections init).
Proof. constructor. Qed.

(** *** The brightness message *)





Lemma brightness_message_truthy (value : Z) :
  truthy_str (Json.dumps (brightness_event value)) = true.
Proof. reflexivity. Qed.


End HubProperties.

(** ** The sheet reader *)
Section SheetProperties.

Import Sheets SheetsSpec.

Context {builtins : StrBuiltins}.

Local Open Scope result_scope.

Lemma and_then_returns {A : Type} (r : result A) :
  (x <- r ;; Returns x) = r.
Proof. destruct r; reflexivity. Qed.

Lemma and_then_assoc {A B C : Type} (r : result A) (f : A -> result B)
  (g : B -> result C) :
  (y <- (x <- r ;; f x) ;; g y) = (x <- r ;; y <- f x ;; g y).
Proof. destruct r; reflexivity. Qed.

(** The loop appends the acts of the rows, in their order, to the acts it
    starts from, and raises what the first row that cannot be read
    raises. *)
Lemma rows_loop_spec (data_rows : list (list string)) (acts : list Act) :
  rows_loop data_rows acts
  = (l <- acts_in_row_order data_rows ;; Returns (acts ++ l)).
Proof.
  revert acts. induction data_rows as [| row rest IH]; intros acts; simpl.
  - rewrite app_nil_r. reflexivity.
  - unfold act_of_row.
    destruct (_parse_time (_get_cell row COL_SCHEDULED_START))
      as [[s |] | e1]; simpl; [| | reflexivity].
    + destruct (_parse_time (_get_cell row COL_SCHEDULED_END))
        as [[e |] | e2]; simpl; [| | reflexivity].
      * destruct (truthy_str (_get_cell row COL_ARTIST_NAME)); simpl.
        -- destruct (_parse_time (_get_cell row COL_ACTUAL_START))
             as [started | e3]; simpl; [| reflexivity].
           destruct (_parse_time (_get_cell row COL_ACTUAL_END))
             as [ended | e4]; simpl; [| reflexivity].
           rewrite IH.
           destruct (acts_in_row_order rest); simpl; [| reflexivity].
           rewrite <- app_assoc. reflexivity.
        -- rewrite IH. destruct (acts_in_row_order rest); reflexivity.
      * rewrite orb_true_r, IH.
        destruct (acts_in_row_order rest); reflexivity.
    + destruct (_parse_time (_get_cell row COL_SCHEDULED_END))
        as [e | e2]; simpl; [| reflexivity].
      rewrite orb_true_r. simpl. rewrite IH.
      destruct (acts_in_row_order rest); reflexivity.
Qed.

Lemma get_schedule_rows (all_values : list (list string)) :
  get_schedule all_values = acts_in_row_order (skipn 5 all_values).
Proof.
  unfold get_schedule. cbv zeta. rewrite rows_loop_spec.
  change (Z.to_nat HEADER_ROW) with 5%nat.
  destruct (acts_in_row_order (skipn 5 all_values)); reflexivity.
Qed.

(** [time] raises [OverflowError] exactly when an argument is beyond the
    range of a C [int]. *)
Lemma new_time_overflow (h m : Z) :
  new_time h m = Raises OverflowError
  <-> fits_c_int h && fits_c_int m = false.
Proof.
  unfold new_time.
  destruct (fits_c_int h), (fits_c_int m); simpl;
    try (split; [reflexivity | reflexivity]).
  destruct ((0 <=? h) && (h <? 24) && (0 <=? m) && (m <? 60));
    split; discriminate.
Qed.

(** The only exception that [_parse_time] lets through is the
    [OverflowError] of [time]. *)
Lemma parse_time_raises (time_str : string) (e : exception) :
  _parse_time time_str = Raises e -> e = OverflowError.
Proof.
  unfold _parse_time.
  destruct (negb (truthy_str time_str)
            || String.eqb (strip time_str) EmptyString); [discriminate |].
  cbv zeta.
  match goal with
  | |- match ?attempt with _ => _ end = _ -> _ =>
      destruct attempt as [t | []]
  end; try discriminate.
  intros H. inversion H. reflexivity.
Qed.

Lemma act_of_row_raises (row : list string) (e : exception) :
  act_of_row row = Raises e -> e = OverflowError.
Proof.
  unfold act_of_row.
  destruct (_parse_time (_get_cell row COL_SCHEDULED_START))
    as [s | e1] eqn:H1; simpl;
    [| intros H; inversion H; subst; exact (parse_time_raises _ _ H1)].
  destruct (_parse_time (_get_cell row COL_SCHEDULED_END))
    as [e0 | e2] eqn:H2; simpl;
    [| intros H; inversion H; subst; exact (parse_time_raises _ _ H2)].
  destruct s as [s |]; [| discriminate].
  destruct e0 as [e0 |]; [| discriminate].
  destruct (truthy_str (_get_cell row COL_ARTIST_NAME)); [| discriminate].
  destruct (_parse_time (_get_cell row COL_ACTUAL_START))
    as [started | e3] eqn:H3; simpl;
    [| intros H; inversion H; subst; exact (parse_time_raises _ _ H3)].
  destruct (_parse_time (_get_cell row COL_ACTUAL_END))
    as [ended | e4] eqn:H4; simpl;
    [discriminate
    | intros H; inversion H; subst; exact (parse_time_raises _ _ H4)].
Qed.

Lemma acts_in_row_order_raises (rows : list (list string)) (e : exception) :
  acts_in_row_order rows = Raises e -> e = OverflowError.
Proof.
  induction rows as [| row rest IH]; simpl; [discriminate |].
  destruct (act_of_row row) as [o | e1] eqn:Hrow; simpl.
  - destruct (acts_in_row_order rest) as [acts | e2]; simpl; [discriminate |].
    intros H. inversion H. subst. apply IH. reflexivity.
  - intros H. inversion H. subst. exact (act_of_row_raises _ _ Hrow).
Qed.

(** A row whose time cells can be read can be read. *)
Lemma act_of_row_returns (row : list string) :
  (forall col,
      In col [COL_SCHEDULED_START; COL_SCHEDULED_END;
              COL_ACTUAL_START; COL_ACTUAL_END] ->
      exists t, _parse_time (_get_cell row col) = Returns t) ->
  exists o, act_of_row row = Returns o.
Proof.
  intros Hread. unfold act_of_row.
  destruct (Hread COL_SCHEDULED_START) as [s ->]; [simpl; tauto |].
  destruct (Hread COL_SCHEDULED_END) as [e ->]; [simpl; tauto |].
  destruct (Hread COL_ACTUAL_START) as [started ->]; [simpl; tauto |].
  destruct (Hread COL_ACTUAL_END) as [ended ->]; [simpl; tauto |].
  simpl. destruct s, e; try (eexists; reflexivity).
  destruct (truthy_str (_get_cell row COL_ARTIST_NAME));
    eexists; reflexivity.
Qed.

Lemma acts_in_row_order_returns (rows : list (list string)) :
  times_can_be_read rows -> exists acts, acts_in_row_order rows = Returns acts.
Proof.
  unfold times_can_be_read.
  induction rows as [| row rest IH]; intros Hread; simpl.
  - exists []. reflexivity.
  - destruct (act_of_row_returns row) as [o ->].
    { intros col Hcol. apply Hread; [left; reflexivity | exact Hcol]. }
    destruct IH as [acts ->].
    { intros r col Hr Hcol. apply Hread; [right; exact Hr | exact Hcol]. }
    simpl. eexists. reflexivity.
Qed.

(** C6, amended. [get_schedule] gives the acts of the data rows, the
    rows after the five header rows that hold a name and scheduled times
    that parse, in the order of the rows of the sheet.  It does not sort
    them: what it returns is sorted by ascending scheduled start exactly
    when those rows follow one another in that order.  It returns
    whenever the time cells of the data rows can be read, and the only
    exception it raises is the [OverflowError] that [_parse_time] lets
    through. *)
Theorem get_schedule_row_order (all_values : list (list string)) :
  get_schedule all_values = acts_in_row_order (skipn 5 all_values)
  /\ (forall acts,
      get_schedule all_values = Returns acts ->
      (sorted_by_scheduled_start acts
       <-> exists in_row_order,
           acts_in_row_order (skipn 5 all_values) = Returns in_row_order
           /\ sorted_by_scheduled_start in_row_order))
  /\ (times_can_be_read (skipn 5 all_values) ->
      exists acts, get_schedule all_values = Returns acts)
  /\ (forall e, get_schedule all_values = Raises e -> e = OverflowError).
Proof.
  pose proof (get_schedule_rows all_values) as H.
  split; [exact H |]. split; [| split].
  - intros acts Hacts. rewrite H in Hacts. split.
    + intros Hsorted. exists acts. split; assumption.
    + intros [acts' [Hacts' Hsorted]]. congruence.
  - intros Hread. rewrite H. apply acts_in_row_order_returns, Hread.
  - intros e. rewrite H. apply acts_in_row_order_raises.
Qed.

End SheetProperties.

(** C6 as stated fails: on a sheet whose first data row starts at 22:00
    and whose second starts at 20:00, [get_schedule] returns the two acts
    in that order, which is not ascending. *)
Lemma get_schedule_not_sorted :
  @Sheets.get_schedule Sheets.Plain.builtins Examples.unordered_sheet
  = Returns [Examples.late_show; Examples.early_show]
  /\ ~ SheetsSpec.sorted_by_scheduled_start
         [Examples.late_show; Examples.early_show].
Proof.
  split; [reflexivity |].
  intros Hsorted.
  inversion Hsorted as [| a l _ Hall]. subst.
  inversion Hall as [| b l' Hle _]. subst.
  apply Hle. reflexivity.
Qed.

(** ** The properties at work on the example data *)

Lemma evening_one_day : SlipSpec.one_day Examples.evening.
Proof. intros i j. reflexivity. Qed.


(** C2. The loop body on the headliner, in progress since 19:35 for a
    set scheduled from 19:30 to 21:00, when midnight passes between the
    two readings of the clock: the claimed slip is [300], the seconds
    from 21:00 to 19:35 plus an hour and a half, and the body gives [0],
    whatever the slip was. *)
Lemma slip_after_over_midnight :
  actual_start Examples.headliner = Some (Examples.at_time 19 35 0)
  /\ actual_end Examples.headliner = None
  /\ Z.max 0 (time_seconds (Examples.at_time 19 35 0)
              + scheduled_duration (ActProperties := Models.properties)
                  Examples.headliner
              - time_seconds (scheduled_end Examples.headliner)) = 300
  /\ (forall slip,
      fst (Slip.slip_after Examples.over_midnight (props := Models.properties)
             Examples.headliner slip 0%nat) = 0).
Proof. repeat split. Qed.



(** The loop body on the headliner, which started five minutes late, on
    a clock that stays on one day: whatever the slip was, it is [300]
    afterwards. *)
Lemma slip_after_act_in_progress_witness :
  actual_start Examples.headliner = Some (Examples.at_time 19 35 0)
  /\ actual_end Examples.headliner = None
  /\ fst (Slip.slip_after Examples.evening (props := Models.properties)
            Examples.headliner 90 0%nat) = 300.
Proof.
  split; [reflexivity |]. split; [reflexivity |].
  apply (slip_after_act_in_progress Examples.evening
           (props := Models.properties) Examples.headliner
           (Examples.at_time 19 35 0) 90 0 eq_refl eq_refl).
  - exact evening_one_day.
  - reflexivity.
  - reflexivity.
  - reflexivity.
  - reflexivity.
Defined.


(** C7 on a negative duration. *)
Lemma format_duration_spec_witness :
  Slip.format_duration (-3725) = String "-" (Slip.format_duration 3725)
  /\ Slip.format_duration 3725 = "1h 2m"%string.
Proof.
  split.
  - apply (proj1 format_duration_spec (-3725)). reflexivity.
  - destruct (proj1 (proj2 format_duration_spec) 3725) as [Hhours _];
      [lia |].
    apply Hhours. reflexivity.
Defined.

(** C8 on a late and on an early finish. *)
Lemma format_variance_spec_witness :
  Slip.format_variance (Some 90) = String "+" (Slip.format_duration 90)
  /\ Slip.format_variance (Some (-30)) = Slip.format_duration (-30).
Proof.
  split.
  - apply (proj1 (proj2 (proj2 format_variance_spec)) 90). reflexivity.
  - apply (proj1 (proj2 (proj2 (proj2 format_variance_spec))) (-30)).
    reflexivity.
Defined.




(** * Further properties *)

(** ** The connection manager, method by method *)
Section MoreHubProperties.

Import Websocket HubSpec HubCalls.

Variable transport : Transport.

Lemma dict_pop_filter (d : dict) (k : WebSocket) :
  dict_pop d k = filter (fun entry => negb (Nat.eqb (fst entry) k)) d.
Proof.
  induction d as [| [k' v] rest IH]; simpl; [reflexivity |].
  destruct (Nat.eqb k' k); simpl; rewrite IH; reflexivity.
Qed.

Lemma fold_dict_pop_filter (gone : list WebSocket) (d : dict) :
  fold_left dict_pop gone d = filter (not_among gone) d.
Proof.
  revert d. induction gone as [| k gone IH]; intros d; simpl.
  - induction d as [| entry rest IHd]; [reflexivity |].
    simpl. unfold not_among in *. simpl in *. rewrite <- IHd. reflexivity.
  - rewrite IH, dict_pop_filter. clear IH.
    induction d as [| [k' v] rest IHd]; [reflexivity |].
    simpl. unfold not_among in *. simpl in *.
    destruct (Nat.eqb k' k); simpl; rewrite IHd; reflexivity.
Qed.




(** X1. [disconnect] never raises; afterwards the connection is not live,
    the other entries of the live set are there in their order, and the
    brightness is as before.  On a connection that is not live it leaves
    the live set as it is, so that a second [disconnect] changes
    nothing. *)
Theorem disconnect_removes (c : WebSocket) (w : World) :
  let after := snd (disconnect c w) in
  fst (disconnect c w) = inr tt
  /\ ~ In c (keys (live after))
  /\ live after = filter (fun entry => negb (Nat.eqb (fst entry) c)) (live w)
  /\ current_brightness (manager after) = current_brightness (manager w)
  /\ (~ In c (keys (live w)) -> live after = live w)
  /\ live (snd (disconnect c after)) = live after.
Proof.
  intros after.
  assert (Hgone : ~ In c (keys (live after))).
  { unfold after. simpl. intros Hin.
    apply keys_dict_pop in Hin. tauto. }
  split; [reflexivity |]. split; [exact Hgone |].
  split; [apply dict_pop_filter |]. split; [reflexivity |].
  split.
  - intros Hnot. apply dict_pop_absent, Hnot.
  - apply (dict_pop_absent (live after) c Hgone).
Qed.



(** X4. Whatever calls are made on a manager as created, in whatever
    order and on whatever transport, the live set holds every connection
    once. *)
Theorem live_set_holds_each_connection_once (calls : list call) :
  distinct_keys (live (perform_all transport calls (mk_world init []))).
Proof.
  assert (Hkeep : forall calls w,
             distinct_keys (live w) ->
             distinct_keys (live (perform_all transport calls w))).
  { clear calls. intros calls.
    induction calls as [| c rest IH]; intros w Hd; [exact Hd |].
    simpl. apply IH.
    destruct (distinct_keys_kept transport w Hd) as [Hc [Hdis Hall]].
    destruct c as [ws e | ws | message | v e | value]; simpl.
    - apply Hc.
    - apply Hdis.
    - apply Hall.
    - apply Hall.
    - rewrite broadcast_brightness_unfold.
      apply (distinct_keys_kept transport
               (mk_world (mk_manager (live w) value)
                         (history w ++ [SetBrightness value])) Hd). }
  apply Hkeep. apply init_distinct_keys.
Qed.

(** *** What a broadcast leaves of the manager *)





(** The first loop calls [send_text] on the entries with a payload, in
    their order. *)
Lemma send_loop_in_order (get_message : WebSocket -> bool -> option string)
  (todo : list (WebSocket * bool)) (disconnected : list WebSocket) (w : World) :
  exists sends,
    send_loop transport get_message todo disconnected w
    = (inr (disconnected ++ failed_of sends),
       mk_world (manager w) (history w ++ sends))
    /\ Forall (fun e => is_send e = true) sends
    /\ (forall c, sends_to c sends = payloads get_message c todo)
    /\ recipients sends = keys (filter (has_payload get_message) todo).
Proof.
  revert disconnected w.
  induction todo as [| [conn is_editor] rest IH]; intros disconnected w.
  - exists []. simpl. rewrite !app_nil_r, world_eta.
    repeat split. constructor.
  - simpl. unfold bind at 1. unfold has_payload at 1. simpl.
    destruct (get_message conn is_editor) as [text |] eqn:Hm;
      [destruct (truthy_str text) eqn:Ht |].
    + unfold try_except, bind, send_text.
      destruct (send_raises transport (history w) conn text) as [exn |];
        simpl;
        match goal with
        | |- context [send_loop _ _ rest ?d ?w1] =>
            destruct (IH d w1) as [sends [Hrun [Hsends [Hto Hrec]]]]
        end;
        match goal with
        | |- context [SendText conn text ?ok] =>
            exists (SendText conn text ok :: sends)
        end;
        rewrite Hrun; simpl; rewrite <- !app_assoc; simpl;
        (split; [reflexivity |]);
        (split; [constructor; [reflexivity | exact Hsends] |]);
        (split; [| rewrite Hrec; reflexivity]);
        intros c; rewrite Hto; destruct (Nat.eqb conn c); reflexivity.
    + simpl. destruct (IH disconnected w) as [sends [Hrun [Hsends [Hto Hrec]]]].
      exists sends. rewrite Hrun.
      split; [reflexivity |]. split; [exact Hsends |]. split; [| exact Hrec].
      intros c. rewrite Hto. destruct (Nat.eqb conn c); reflexivity.
    + simpl. destruct (IH disconnected w) as [sends [Hrun [Hsends [Hto Hrec]]]].
      exists sends. rewrite Hrun.
      split; [reflexivity |]. split; [exact Hsends |]. split; [| exact Hrec].
      intros c. rewrite Hto. destruct (Nat.eqb conn c); reflexivity.
Qed.

(** The events of [_send_to_all], its sends and then its pops, and the
    manager it leaves. *)
Lemma send_to_all_events (get_message : WebSocket -> bool -> option string)
  (w : World) :
  exists sends,
    _send_to_all transport get_message w
    = (inr tt,
       mk_world
         (mk_manager (filter (not_among (failed_of sends)) (live w))
                     (current_brightness (manager w)))
         (history w ++ sends ++ map PopConnection (failed_of sends)))
    /\ events_since w (snd (_send_to_all transport get_message w))
       = sends ++ map PopConnection (failed_of sends)
    /\ Forall (fun e => is_send e = true) sends
    /\ (forall c, sends_to c sends = payloads get_message c (live w))
    /\ recipients sends = keys (filter (has_payload get_message) (live w)).
Proof.
  destruct (send_loop_in_order get_message (live w) [] w)
    as [sends [Hrun [Hsends [Hto Hrec]]]].
  exists sends.
  assert (Hall : _send_to_all transport get_message w
                 = (inr tt,
                    mk_world
                      (mk_manager (filter (not_among (failed_of sends)) (live w))
                                  (current_brightness (manager w)))
                      (history w ++ sends
                       ++ map PopConnection (failed_of sends)))).
  { unfold _send_to_all, bind, items. fold (live w). rewrite Hrun.
    rewrite disconnect_loop_spec. simpl.
    rewrite <- app_assoc, fold_dict_pop_filter. reflexivity. }
  split; [exact Hall |]. split; [| repeat split; assumption].
  rewrite Hall. apply events_since_app. reflexivity.
Qed.


(** X6. A broadcast of the empty string does nothing at all: it calls
    [send_text] on no connection and leaves the manager and its history
    as they are; so does [broadcast_schedule] with two empty pages. *)
Theorem broadcast_of_nothing (w : World) :
  broadcast transport EmptyString w = (inr tt, w)
  /\ broadcast_schedule transport EmptyString EmptyString w = (inr tt, w).
Proof.
  assert (Hloop : forall get_message todo disconnected w0,
             (forall c e, get_message c e = Some EmptyString) ->
             send_loop transport get_message todo disconnected w0
             = (inr disconnected, w0)).
  { intros get_message todo. induction todo as [| [c e] rest IH];
      intros disconnected w0 Hm; [reflexivity |].
    simpl. unfold bind at 1. rewrite Hm. simpl. apply IH, Hm. }
  split.
  - unfold broadcast, _send_to_all, bind, items.
    rewrite Hloop by reflexivity. reflexivity.
  - unfold broadcast_schedule, _send_to_all, bind, items.
    rewrite Hloop; [reflexivity |]. intros c [|]; reflexivity.
Qed.


(** X8. [broadcast_schedule] keeps the roles apart: on a live set that
    holds every connection once, whatever is sent to a viewer is the
    viewer page and whatever is sent to an editor is the editor page. *)
Theorem broadcast_schedule_keeps_roles_apart (w : World)
  (viewer_html editor_html : string) (c : WebSocket) (role : bool)
  (text : string) (ok : bool) :
  distinct_keys (live w) ->
  In (c, role) (live w) ->
  In (SendText c text ok)
     (events_since w
        (snd (broadcast_schedule transport viewer_html editor_html w))) ->
  text = if role then editor_html else viewer_html.
Proof.
  intros Hd Hin Hsent.
  assert (Hs : In text
                 (sends_to c
                    (events_since w
                       (snd (broadcast_schedule transport viewer_html
                               editor_html w))))).
  { apply in_sends_to. exists ok. exact Hsent. }
  unfold broadcast_schedule in Hs. rewrite send_to_all_sends in Hs.
  rewrite (payloads_distinct _ (live w) c role Hd Hin) in Hs.
  destruct (truthy_str (if role then editor_html else viewer_html));
    simpl in Hs; [| contradiction].
  destruct Hs as [Heq | []]. symmetry. exact Heq.
Qed.

(** By itself, a connection is served while it is connected and not
    otherwise.  After a [connect] that returned, on a live set that holds
    every connection once, a [broadcast] of a text that is not empty and
    a [broadcast_brightness] call [send_text] on the connection exactly
    once; after a [disconnect], no broadcast calls it on the
    connection. *)
Lemma served_while_connected (c : WebSocket) (w : World) :
  (forall is_editor,
      distinct_keys (live w) ->
      fst (connect transport c is_editor w) = inr tt ->
      let joined := snd (connect transport c is_editor w) in
      (forall message,
          truthy_str message = true ->
          sends_to c
            (events_since joined (snd (broadcast transport message joined)))
          = [message])
      /\ (forall value,
          sends_to c
            (events_since joined
               (snd (broadcast_brightness transport value joined)))
          = [Json.dumps (brightness_event value)]))
  /\ (let parted := snd (disconnect c w) in
      (forall get_message,
          sends_to c
            (events_since parted
               (snd (_send_to_all transport get_message parted)))
          = [])
      /\ (forall value,
          sends_to c
            (events_since parted
               (snd (broadcast_brightness transport value parted)))
          = [])).
Proof.
  assert (Hbright : forall w0 value,
             sends_to c
               (events_since w0 (snd (broadcast_brightness transport value w0)))
             = payloads (fun _ _ => Some (Json.dumps (brightness_event value)))
                        c (live w0)).
  { intros w0 value. rewrite broadcast_brightness_unfold.
    set (w1 := mk_world (mk_manager (live w0) value)
                        (history w0 ++ [SetBrightness value])).
    destruct (send_to_all_events
                (fun _ _ => Some (Json.dumps (brightness_event value))) w1)
      as [sends [Hall [_ [_ [Hto _]]]]].
    unfold broadcast. rewrite Hall.
    rewrite (events_since_app w0 _
               (SetBrightness value
                :: sends ++ map PopConnection (failed_of sends)))
      by (simpl; rewrite <- app_assoc; reflexivity).
    simpl. rewrite sends_to_app, sends_to_pops, app_nil_r. apply Hto. }
  split.
  - intros is_editor Hd Hret joined.
    assert (Hlive : live joined = dict_set (live w) c is_editor).
    { unfold joined. rewrite (connect_returns transport c is_editor w Hret).
      reflexivity. }
    assert (Hd1 : distinct_keys (live joined))
      by (rewrite Hlive; apply dict_set_distinct, Hd).
    assert (Hin : In (c, is_editor) (live joined))
      by (rewrite Hlive; apply in_dict_set_same).
    split.
    + intros message Ht. unfold broadcast. rewrite send_to_all_sends.
      rewrite (payloads_distinct _ (live joined) c is_editor Hd1 Hin), Ht.
      reflexivity.
    + intros value. rewrite Hbright.
      rewrite (payloads_distinct _ (live joined) c is_editor Hd1 Hin).
      rewrite brightness_message_truthy. reflexivity.
  - intros parted.
    assert (Hgone : ~ In c (keys (live parted))).
    { unfold parted. simpl. intros Hin. apply keys_dict_pop in Hin. tauto. }
    split.
    + intros get_message. rewrite send_to_all_sends.
      apply payloads_absent, Hgone.
    + intros value. rewrite Hbright. apply payloads_absent, Hgone.
Qed.

End MoreHubProperties.

(** ** The connection manager among other tasks *)
Section ConcurrentProperties.

Import Websocket HubSpec HubCalls TaskSpec.
Import Concurrent.

Variable surroundings : Surroundings.
Variable transport : Transport.










(** The second loop: the pops are those of the loop by itself. *)
Lemma disconnect_loop_seen (disconnected : list WebSocket) (s : Scene) :
  seen (disconnect_loop disconnected s)
  = Websocket.disconnect_loop disconnected (world s).
Proof.
  revert s. induction disconnected as [| conn rest IH]; intros s.
  - destruct s as [w n]. reflexivity.
  - cbn [disconnect_loop Websocket.disconnect_loop].
    unfold bind at 1, Websocket.bind at 1.
    unfold disconnect, pop_connection, make, apply_change.
    destruct (has_key (active_connections (manager (world s))) conn);
      cbn [fst snd]; rewrite IH; reflexivity.
Qed.














(** *** What holds whatever the other tasks do *)

Lemma has_key_in (d : dict) (k : WebSocket) :
  has_key d k = true <-> In k (keys d).
Proof.
  unfold has_key. rewrite existsb_exists. split.
  - intros [x [Hin Heq]]. apply Nat.eqb_eq in Heq. subst. exact Hin.
  - intros Hin. exists k. split; [exact Hin | apply Nat.eqb_refl].
Qed.

Lemma dict_set_length_present (d : dict) (k : WebSocket) (v : bool) :
  In k (keys d) -> length (dict_set d k v) = length d.
Proof.
  induction d as [| [k' v'] rest IH]; simpl; [tauto |].
  intros Hin. destruct (Nat.eqb_spec k' k) as [-> | Hne]; [reflexivity |].
  simpl. rewrite IH; [reflexivity |]. destruct Hin; [contradiction | assumption].
Qed.

(** The count of key changes never goes down, and the dictionary has as
    many entries as before when the count is what it was. *)
Lemma apply_changes_counts (changes : list change)
  (state : ConnectionManager * nat) :
  (snd state <= snd (fold_left apply_change changes state))%nat
  /\ (snd (fold_left apply_change changes state) = snd state ->
      length (active_connections (fst (fold_left apply_change changes state)))
      = length (active_connections (fst state))).
Proof.
  revert state. induction changes as [| c rest IH]; intros [m n];
    [split; [apply Nat.le_refl | reflexivity] |].
  cbn [fold_left].
  assert (Hone : (n <= snd (apply_change (m, n) c))%nat
                 /\ (snd (apply_change (m, n) c) = n ->
                     length (active_connections
                               (fst (apply_change (m, n) c)))
                     = length (active_connections m))).
  { destruct c as [ws is_editor | ws | value]; cbn [apply_change].
    - destruct (has_key (active_connections m) ws) eqn:Hk;
        cbn [fst snd active_connections].
      + split; [apply Nat.le_refl |]. intros _.
        apply dict_set_length_present, has_key_in, Hk.
      + split; [lia | intros H; exfalso; lia].
    - destruct (has_key (active_connections m) ws) eqn:Hk;
        cbn [fst snd active_connections].
      + split; [lia | intros H; exfalso; lia].
      + split; [apply Nat.le_refl |]. intros _.
        rewrite dict_pop_absent; [reflexivity |].
        intros Hin. apply has_key_in in Hin. congruence.
    - cbn [fst snd active_connections].
      split; [apply Nat.le_refl | reflexivity]. }
  destruct (IH (apply_change (m, n) c)) as [Hle Hsame].
  destruct Hone as [Hle1 Hsame1]. cbn [fst snd] in *.
  split; [lia |].
  intros Heq. rewrite Hsame by lia. apply Hsame1. lia.
Qed.

Lemma follows_refl (s : Scene) : follows s s.
Proof. split; [apply Nat.le_refl | reflexivity]. Qed.

Lemma follows_trans (s1 s2 s3 : Scene) :
  follows s1 s2 -> follows s2 s3 -> follows s1 s3.
Proof.
  intros [Hle1 Hsame1] [Hle2 Hsame2]. split; [lia |].
  intros Heq. rewrite Hsame2 by lia. apply Hsame1. lia.
Qed.

(** A call on the transport returns or raises and leaves a scene that
    follows. *)
Lemma await_follows {A : Type} (call : Hub A) (s : Scene) :
  (forall w, manager (snd (call w)) = manager w) ->
  follows s (snd (await surroundings call s)).
Proof.
  intros Hcall. unfold await, bind, others_run, on_transport.
  pose proof (apply_changes_counts
                (meanwhile surroundings (history (world s)))
                (manager (world s), key_changes s)) as [Hle Hsame].
  destruct (fold_left apply_change (meanwhile surroundings (history (world s)))
                      (manager (world s), key_changes s)) as [m n].
  cbn [fst snd world key_changes history] in *.
  specialize (Hcall (mk_world m (history (world s)))).
  destruct (call (mk_world m (history (world s)))) as [outcome w'].
  cbn [snd key_changes world] in *.
  split; [exact Hle |]. intros Heq. unfold live. cbn [world].
  rewrite Hcall. apply Hsame, Heq.
Qed.

(** The body of the first loop never raises: a send that fails is
    caught. *)
Lemma send_step_returns (conn : WebSocket) (message : option string)
  (disconnected : list WebSocket) (s : Scene) :
  exists disconnected',
    fst (match message with
         | Some text =>
             if truthy_str text then
               try_except
                 (bind (send_text surroundings transport conn text)
                       (fun _ => ret disconnected))
                 (fun _ => ret (disconnected ++ [conn]))
             else ret disconnected
         | None => ret disconnected
         end s) = inr disconnected'
    /\ follows s
         (snd (match message with
               | Some text =>
                   if truthy_str text then
                     try_except
                       (bind (send_text surroundings transport conn text)
                             (fun _ => ret disconnected))
                       (fun _ => ret (disconnected ++ [conn]))
                   else ret disconnected
               | None => ret disconnected
               end s)).
Proof.
  destruct message as [text |];
    [destruct (truthy_str text) |];
    try (exists disconnected; split; [reflexivity | apply follows_refl]).
  pose proof (await_follows (Websocket.send_text transport conn text) s)
    as Hfollows.
  unfold try_except, bind, send_text.
  destruct (await surroundings (Websocket.send_text transport conn text) s)
    as [[e | []] s1]; cbn [fst snd ret] in *.
  - exists (disconnected ++ [conn]). split; [reflexivity |].
    apply Hfollows. intros w. unfold Websocket.send_text.
    destruct (send_raises transport (history w) conn text); reflexivity.
  - exists disconnected. split; [reflexivity |].
    apply Hfollows. intros w. unfold Websocket.send_text.
    destruct (send_raises transport (history w) conn text); reflexivity.
Qed.

(** The first loop returns, or raises [RuntimeError] once a key was
    added or removed under the iteration. *)
Lemma send_loop_outcome (get_message : WebSocket -> bool -> option string)
  (it : iterator) (left : nat) :
  forall (disconnected : list WebSocket) (s : Scene),
    (began_at it <= key_changes s)%nat ->
    (key_changes s = began_at it -> length (live (world s)) = size it) ->
    raised_by_change (began_at it)
      (send_loop surroundings transport get_message it left disconnected s).
Proof.
  induction left as [| left IH]; intros disconnected s Hle Hclean.
  - cbn [send_loop]. unfold raised_by_change, bind, next.
    rewrite Nat.sub_0_r.
    destruct (Nat.eqb_spec (key_changes s) (began_at it)) as [Heq | Hne].
    + replace (nth_error (active_connections (manager (world s))) (size it))
        with (@None (WebSocket * bool))
        by (symmetry; apply nth_error_None;
            rewrite <- (Hclean Heq); unfold live; apply Nat.le_refl).
      exact I.
    + destruct (negb (Nat.eqb (length (active_connections (manager (world s))))
                              (size it))).
      * cbn [fst snd]. split; [reflexivity | lia].
      * destruct (next_after_changes surroundings (history (world s))
                                     (size it)) as [[conn e] | |];
          cbn [fst snd raise]; try exact I; (split; [reflexivity | lia]).
  - cbn [send_loop]. cbv zeta. unfold bind at 1, next.
    assert (Hgo : forall conn is_editor,
               raised_by_change (began_at it)
                 (bind
                    (match get_message conn is_editor with
                     | Some text =>
                         if truthy_str text then
                           try_except
                             (bind (send_text surroundings transport
                                              conn text)
                                   (fun _ => ret disconnected))
                             (fun _ => ret (disconnected ++ [conn]))
                         else ret disconnected
                     | None => ret disconnected
                     end)
                    (fun disconnected' =>
                       send_loop surroundings transport get_message it
                                 left disconnected') s)).
    { intros conn is_editor.
      destruct (send_step_returns conn (get_message conn is_editor)
                  disconnected s) as [disconnected' [Hret [Hle1 Hsame1]]].
      unfold bind at 1.
      destruct (match get_message conn is_editor with
                | Some text =>
                    if truthy_str text then
                      try_except
                        (bind (send_text surroundings transport conn text)
                              (fun _ => ret disconnected))
                        (fun _ => ret (disconnected ++ [conn]))
                    else ret disconnected
                | None => ret disconnected
                end s) as [[e | d1] s1]; cbn [fst snd] in *;
        [discriminate |].
      apply IH; [lia |].
      intros Heq. unfold live. rewrite Hsame1 by lia. apply Hclean. lia. }
    destruct (Nat.eqb_spec (key_changes s) (began_at it)) as [Heq | Hne].
    + destruct (nth_error (active_connections (manager (world s)))
                          (size it - S left)) as [[conn is_editor] |].
      * apply Hgo.
      * exact I.
    + destruct (negb (Nat.eqb (length (active_connections (manager (world s))))
                              (size it))).
      * split; [reflexivity | cbn [snd]; lia].
      * destruct (next_after_changes surroundings (history (world s))
                                     (size it - S left))
          as [[conn is_editor] | |].
        -- apply Hgo.
        -- exact I.
        -- split; [reflexivity | cbn [snd]; lia].
Qed.

(** The second loop never raises. *)
Lemma disconnect_loop_returns (disconnected : list WebSocket) (s : Scene) :
  fst (disconnect_loop disconnected s) = inr tt.
Proof.
  pose proof (disconnect_loop_seen disconnected s) as Hseen.
  rewrite disconnect_loop_spec in Hseen.
  apply (f_equal fst) in Hseen. exact Hseen.
Qed.

(** X23. Whatever the other tasks do and whatever the sends do, a
    broadcast returns or raises [RuntimeError], and it raises only when
    another task added or removed a connection while a send was pending:
    an exception of [send_text] never reaches the caller.  This holds of
    [_send_to_all], and so of [broadcast] and [broadcast_schedule], and
    of [broadcast_brightness]. *)
Theorem broadcast_raises_only_when_disturbed (s : Scene) :
  (forall get_message,
      let outcome := _send_to_all surroundings transport get_message s in
      fst outcome = inr tt
      \/ (fst outcome = inl RuntimeError
          /\ (key_changes s < key_changes (snd outcome))%nat))
  /\ (forall value,
      let outcome := broadcast_brightness surroundings transport value s in
      fst outcome = inr tt
      \/ (fst outcome = inl RuntimeError
          /\ (key_changes s < key_changes (snd outcome))%nat)).
Proof.
  assert (Hall : forall get_message s0,
             raised_by_change (key_changes s0)
               (_send_to_all surroundings transport get_message s0)).
  { intros get_message s0. unfold _send_to_all.
    unfold bind at 1, items. unfold bind at 1.
    pose proof (send_loop_outcome get_message
                  (mk_iterator (key_changes s0)
                     (length (active_connections (manager (world s0)))))
                  (length (active_connections (manager (world s0)))) [] s0
                  (Nat.le_refl _) (fun _ => eq_refl)) as Hloop.
    unfold raised_by_change in *. cbn [size began_at] in *.
    destruct (send_loop surroundings transport get_message _ _ [] s0)
      as [[e | d] s1]; cbn [fst snd] in *; [exact Hloop |].
    rewrite disconnect_loop_returns. exact I. }
  assert (Hcases : forall (outcome : (Exception + unit) * Scene) stamp,
             raised_by_change stamp outcome ->
             fst outcome = inr tt
             \/ (fst outcome = inl RuntimeError
                 /\ (stamp < key_changes (snd outcome))%nat)).
  { intros outcome stamp. unfold raised_by_change.
    destruct (fst outcome) as [e | []].
    - intros [-> Hgrew]. right. split; [reflexivity | exact Hgrew].
    - intros _. left. reflexivity. }
  split.
  - intros get_message. apply Hcases, Hall.
  - intros value. cbv zeta. apply Hcases.
    unfold broadcast_brightness.
    unfold bind at 1, set_brightness, make, apply_change.
    cbn [fst snd]. unfold broadcast.
    match goal with
    | |- raised_by_change _ (_send_to_all _ _ ?g ?s1) =>
        exact (Hall g s1)
    end.
Qed.

End ConcurrentProperties.

(** *** The manager among other tasks, on the example data *)







(** ** The slip calculator and the formatters, further *)
Section MoreSlipProperties.

Import Slip SlipSpec.

Variable clock : nat -> datetime.
Context {props : ActProperties}.

(** X9. The acts that have neither started nor ended have no part in the
    slip: leaving them out of the list gives the same result after the
    same readings of the clock. *)
Theorem calculate_slip_skips_acts_without_data (acts : list Act)
  (current_time : option time) (k : nat) :
  calculate_slip clock (filter has_data acts) current_time k
  = calculate_slip clock acts current_time k.
Proof.
  assert (Hloop : forall slip k0,
             slip_loop clock (filter has_data acts) slip k0
             = slip_loop clock acts slip k0).
  { induction acts as [| act rest IH]; intros slip k0; [reflexivity |].
    simpl filter. destruct (has_data act) eqn:Hd.
    - rewrite !slip_loop_cons. apply IH.
    - rewrite (slip_loop_cons clock act rest),
        (slip_after_not_started clock act slip k0 Hd). apply IH. }
  unfold calculate_slip, bind.
  destruct current_time; simpl; apply Hloop.
Qed.

End MoreSlipProperties.

Section MoreFormatterProperties.

Import Slip.
Local Open Scope string_scope.
Local Open Scope Z_scope.

(** X10. From a minute on, [format_duration] drops the seconds: a
    duration reads as the whole minutes below it, whatever its sign, so
    that 119 seconds read "1m". *)
Theorem format_duration_drops_seconds :
  (forall seconds,
      60 <= seconds ->
      format_duration seconds = format_duration (60 * (seconds / 60)))
  /\ (forall seconds,
      seconds <= -60 ->
      format_duration seconds = format_duration (- (60 * (- seconds / 60))))
  /\ format_duration 119 = "1m".
Proof.
  assert (Hpos : forall seconds,
             60 <= seconds ->
             format_duration seconds = format_duration (60 * (seconds / 60))).
  { intros seconds Hs.
    assert (Hq : 1 <= seconds / 60) by (apply Z.div_le_lower_bound; lia).
    rewrite (format_duration_nonnegative seconds) by lia.
    rewrite (format_duration_nonnegative (60 * (seconds / 60))) by lia.
    assert (Hh : 60 * (seconds / 60) / 3600 = seconds / 3600).
    { Z.to_euclidean_division_equations. lia. }
    assert (Hm : (60 * (seconds / 60)) mod 3600 / 60 = seconds mod 3600 / 60).
    { Z.to_euclidean_division_equations. lia. }
    rewrite Hh, Hm.
    destruct (Z.ltb_spec 0 (seconds / 3600)); [reflexivity |].
    destruct (Z.ltb_spec 0 (seconds mod 3600 / 60)); [reflexivity |].
    exfalso. Z.to_euclidean_division_equations. lia. }
  split; [exact Hpos |]. split; [| reflexivity].
  intros seconds Hs.
  rewrite (format_duration_negative seconds) by lia.
  assert (Hq : 1 <= - seconds / 60) by (apply Z.div_le_lower_bound; lia).
  rewrite (format_duration_negative (- (60 * (- seconds / 60)))) by lia.
  replace (Z.abs seconds) with (- seconds) by lia.
  replace (Z.abs (- (60 * (- seconds / 60)))) with (60 * (- seconds / 60))
    by lia.
  rewrite (Hpos (- seconds)) by lia. reflexivity.
Qed.

(** X19. The result of [format_variance] tells the cases apart: it is
    empty for [None] alone, it is "on time" for [0] alone, it starts with
    a plus sign for the positive numbers alone and with a minus sign for
    the negative numbers alone. *)
Theorem format_variance_tells_cases_apart :
  (forall x, format_variance x = "" <-> x = None)
  /\ (forall n, format_variance (Some n) = "on time" <-> n = 0)
  /\ (forall n,
      (exists rest, format_variance (Some n) = String "+" rest) <-> 0 < n)
  /\ (forall n,
      (exists rest, format_variance (Some n) = String "-" rest) <-> n < 0).
Proof.
  assert (Hcases : forall n,
             (n = 0 /\ format_variance (Some n) = "on time")
             \/ (0 < n /\ format_variance (Some n)
                            = String "+" (format_duration n))
             \/ (n < 0 /\ format_variance (Some n)
                            = String "-" (format_duration (Z.abs n)))).
  { intros n. unfold format_variance.
    destruct (Z.eqb_spec n 0) as [-> | Hne]; [left; split; reflexivity |].
    destruct (Z.ltb_spec 0 n) as [Hpos | Hneg].
    - right. left. split; [exact Hpos | reflexivity].
    - right. right. split; [lia |]. apply format_duration_negative. lia. }
  split; [| split; [| split]].
  - intros [n |]; [| split; reflexivity].
    split; [| discriminate].
    destruct (Hcases n) as [[_ H] | [[_ H] | [_ H]]]; rewrite H; discriminate.
  - intros n. destruct (Hcases n) as [[H0 H] | [[Hp H] | [Hn H]]]; rewrite H.
    + split; [intros _; exact H0 | reflexivity].
    + split; [discriminate | lia].
    + split; [discriminate | lia].
  - intros n. destruct (Hcases n) as [[H0 H] | [[Hp H] | [Hn H]]]; rewrite H.
    + split; [intros [rest Hr]; discriminate | lia].
    + split; [intros _; exact Hp | intros _; eexists; reflexivity].
    + split; [intros [rest Hr]; discriminate | lia].
  - intros n. destruct (Hcases n) as [[H0 H] | [[Hp H] | [Hn H]]]; rewrite H.
    + split; [intros [rest Hr]; discriminate | lia].
    + split; [intros [rest Hr]; discriminate | lia].
    + split; [intros _; exact Hn | intros _; eexists; reflexivity].
Qed.

End MoreFormatterProperties.

(** ** The sheet reader and the store, further *)
Section MoreSheetProperties.

Import Sheets SheetsSpec StoreSpec.

Context {builtins : StrBuiltins}.

Local Open Scope result_scope.

Lemma new_time_valid (h m : Z) (t : time) :
  new_time h m = Returns t ->
  t = mk_time h m 0 0 /\ 0 <= h < 24 /\ 0 <= m < 60.
Proof.
  unfold new_time.
  destruct (negb (fits_c_int h) || negb (fits_c_int m)); [discriminate |].
  destruct (Z.leb_spec 0 h) as [Hh0 | Hh0]; simpl; [| discriminate].
  destruct (Z.ltb_spec h 24) as [Hh1 | Hh1]; simpl; [| discriminate].
  destruct (Z.leb_spec 0 m) as [Hm0 | Hm0]; simpl; [| discriminate].
  destruct (Z.ltb_spec m 60) as [Hm1 | Hm1]; simpl; [| discriminate].
  intros Hsome. inversion Hsome. repeat split; lia.
Qed.

(** X11. [_parse_time] gives [None] for the empty text and for a text
    that [strip] leaves empty, and a time that it gives has its hour and
    minute within their ranges and no seconds.  When it raises, it raises
    [OverflowError], on a text that is neither empty nor blank. *)
Theorem parse_time_is_careful (time_str : string) :
  (time_str = EmptyString -> _parse_time time_str = Returns None)
  /\ (strip time_str = EmptyString -> _parse_time time_str = Returns None)
  /\ (forall t,
      _parse_time time_str = Returns (Some t) ->
      hour_minute_valid t /\ second t = 0 /\ microsecond t = 0
      /\ time_str <> EmptyString /\ strip time_str <> EmptyString)
  /\ (forall e,
      _parse_time time_str = Raises e ->
      e = OverflowError
      /\ time_str <> EmptyString /\ strip time_str <> EmptyString).
Proof.
  assert (Hguard : forall r,
             _parse_time time_str = r -> r <> Returns None ->
             time_str <> EmptyString /\ strip time_str <> EmptyString).
  { intros r. unfold _parse_time.
    destruct (negb (truthy_str time_str)
              || String.eqb (strip time_str) EmptyString) eqn:Hguard.
    - intros <- Hr. contradiction.
    - intros _ _. apply orb_false_iff in Hguard as [Hfull Hstrip]. split.
      + intros ->. discriminate.
      + apply String.eqb_neq. exact Hstrip. }
  split; [| split; [| split]].
  - intros ->. reflexivity.
  - intros Hblank. unfold _parse_time. rewrite Hblank. simpl.
    rewrite orb_true_r. reflexivity.
  - intros t Ht. destruct (Hguard _ Ht) as [Hfull Hstrip]; [discriminate |].
    revert Ht. unfold _parse_time.
    destruct (negb (truthy_str time_str)
              || String.eqb (strip time_str) EmptyString); [discriminate |].
    cbv zeta. unfold item, int.
    destruct (nth_error (split (strip time_str) ":") 0) as [part0 |];
      cbn [and_then]; [| discriminate].
    destruct (int_of_str part0) as [h |]; cbn [and_then]; [| discriminate].
    destruct (nth_error (split (strip time_str) ":") 1) as [part1 |];
      cbn [and_then]; [| discriminate].
    destruct (int_of_str part1) as [m |]; cbn [and_then]; [| discriminate].
    destruct (new_time h m) as [t' | []] eqn:Hnew; try discriminate.
    intros Heq. inversion Heq. subst t'.
    apply new_time_valid in Hnew as [-> Hrange].
    unfold hour_minute_valid. simpl.
    split; [lia |]. split; [reflexivity |]. split; [reflexivity |].
    split; assumption.
  - intros e He. split; [exact (parse_time_raises _ _ He) |].
    apply (Hguard _ He). discriminate.
Qed.

Lemma acts_in_row_order_app (rows1 rows2 : list (list string)) :
  acts_in_row_order (rows1 ++ rows2)
  = (acts1 <- acts_in_row_order rows1 ;;
     acts2 <- acts_in_row_order rows2 ;;
     Returns (acts1 ++ acts2)).
Proof.
  induction rows1 as [| row rest IH]; simpl.
  - destruct (acts_in_row_order rows2); reflexivity.
  - destruct (act_of_row row) as [o | e]; simpl; [| reflexivity].
    rewrite IH.
    destruct (acts_in_row_order rest) as [acts1 | e]; simpl; [| reflexivity].
    destruct (acts_in_row_order rows2) as [acts2 | e]; simpl; [| reflexivity].
    destruct o; reflexivity.
Qed.

(** The rows of a list that can be read can be read one by one. *)
Lemma acts_in_row_order_cons (row : list string) (rest : list (list string))
  (acts : list Act) :
  acts_in_row_order (row :: rest) = Returns acts ->
  exists o later,
    act_of_row row = Returns o
    /\ acts_in_row_order rest = Returns later
    /\ acts = match o with
              | Some a => a :: later
              | None => later
              end.
Proof.
  simpl. destruct (act_of_row row) as [o | e]; simpl; [| discriminate].
  destruct (acts_in_row_order rest) as [later | e]; simpl; [| discriminate].
  intros H. inversion H. exists o, later. repeat split.
Qed.

Lemma acts_in_row_order_split (rows1 rows2 : list (list string))
  (acts : list Act) :
  acts_in_row_order (rows1 ++ rows2) = Returns acts ->
  exists acts1 acts2,
    acts_in_row_order rows1 = Returns acts1
    /\ acts_in_row_order rows2 = Returns acts2
    /\ acts = acts1 ++ acts2.
Proof.
  rewrite acts_in_row_order_app.
  destruct (acts_in_row_order rows1) as [acts1 | e]; simpl; [| discriminate].
  destruct (acts_in_row_order rows2) as [acts2 | e]; simpl; [| discriminate].
  intros H. inversion H. exists acts1, acts2. repeat split.
Qed.

Lemma acts_in_row_order_length (rows : list (list string))
  (acts : list Act) :
  acts_in_row_order rows = Returns acts ->
  (length acts <= length rows)%nat.
Proof.
  revert acts. induction rows as [| row rest IH]; intros acts.
  - simpl. intros H. inversion H. simpl. lia.
  - intros H.
    apply acts_in_row_order_cons in H as [o [later [_ [Hlater ->]]]].
    specialize (IH later Hlater). destruct o; simpl; lia.
Qed.

(** X12. [get_schedule] never reads the first five rows: two sheets that
    differ in them alone give the same acts, or raise alike, a sheet of
    five rows or fewer gives no act, and there are never more acts than
    rows below the header. *)
Theorem get_schedule_skips_header :
  (forall top top' rows,
      length top = 5%nat -> length top' = 5%nat ->
      get_schedule (top ++ rows) = get_schedule (top' ++ rows))
  /\ (forall all_values,
      (length all_values <= 5)%nat -> get_schedule all_values = Returns [])
  /\ (forall all_values acts,
      get_schedule all_values = Returns acts ->
      (length acts <= length all_values - 5)%nat).
Proof.
  split; [| split].
  - assert (Hskip : forall (t r : list (list string)),
               length t = 5%nat -> skipn 5 (t ++ r) = r).
    { intros t r Hl. rewrite <- Hl.
      rewrite skipn_app, skipn_all, Nat.sub_diag. reflexivity. }
    intros top top' rows Ht Ht'. rewrite !get_schedule_rows.
    rewrite (Hskip top rows Ht), (Hskip top' rows Ht'). reflexivity.
  - intros all_values Hlen. rewrite get_schedule_rows.
    rewrite skipn_all2 by exact Hlen. reflexivity.
  - intros all_values acts. rewrite get_schedule_rows.
    rewrite <- (length_skipn 5 all_values).
    apply acts_in_row_order_length.
Qed.

(** The rows that hold a given act. *)
Lemma act_of_row_some (row : list string) (a : Act) :
  act_of_row row = Returns (Some a)
  <-> act_name a = _get_cell row COL_ARTIST_NAME
      /\ act_name a <> EmptyString
      /\ _parse_time (_get_cell row COL_SCHEDULED_START)
         = Returns (Some (scheduled_start a))
      /\ _parse_time (_get_cell row COL_SCHEDULED_END)
         = Returns (Some (scheduled_end a))
      /\ _parse_time (_get_cell row COL_ACTUAL_START)
         = Returns (actual_start a)
      /\ _parse_time (_get_cell row COL_ACTUAL_END) = Returns (actual_end a)
      /\ notes a = None.
Proof.
  unfold act_of_row. split.
  - destruct (_parse_time (_get_cell row COL_SCHEDULED_START))
      as [[s |] | e1]; simpl; try discriminate.
    + destruct (_parse_time (_get_cell row COL_SCHEDULED_END))
        as [[e |] | e2]; simpl; try discriminate.
      destruct (_get_cell row COL_ARTIST_NAME) as [| c name] eqn:Hname;
        simpl; [discriminate |].
      destruct (_parse_time (_get_cell row COL_ACTUAL_START))
        as [started | e3]; simpl; [| discriminate].
      destruct (_parse_time (_get_cell row COL_ACTUAL_END))
        as [ended | e4]; simpl; [| discriminate].
      intros H. inversion H. simpl. repeat split. discriminate.
    + destruct (_parse_time (_get_cell row COL_SCHEDULED_END))
        as [e | e2]; simpl; discriminate.
  - intros [Hn [Hne [Hs [He [Has [Hae Hno]]]]]].
    rewrite Hs, He, <- Hn. simpl.
    destruct (act_name a) as [| c name] eqn:Hname; [contradiction |].
    simpl. rewrite Has, Hae. simpl.
    destruct a as [n s e st en no]. simpl in *. subst. reflexivity.
Qed.

Lemma in_acts_in_row_order (rows : list (list string)) (acts : list Act)
  (a : Act) :
  acts_in_row_order rows = Returns acts ->
  (In a acts <-> exists row, In row rows /\ act_of_row row = Returns (Some a)).
Proof.
  revert acts. induction rows as [| row rest IH]; intros acts Hacts.
  - simpl in Hacts. inversion Hacts. split; [intros [] | intros [row [[] _]]].
  - apply acts_in_row_order_cons in Hacts as [o [later [Hrow [Hlater ->]]]].
    specialize (IH later Hlater). split.
    + intros Hin.
      assert (Hcases : o = Some a \/ In a later).
      { destruct o as [b |]; [| right; exact Hin].
        destruct Hin as [-> | Hin]; [left; reflexivity | right; exact Hin]. }
      destruct Hcases as [-> | Hin'].
      * exists row. split; [left; reflexivity | exact Hrow].
      * apply IH in Hin' as [row' [Hin' H]].
        exists row'. split; [right; exact Hin' | exact H].
    + intros [row' [[<- | Hin] H]].
      * rewrite Hrow in H. inversion H. left. reflexivity.
      * assert (Hlater' : In a later) by (apply IH; exists row'; tauto).
        destruct o; [right |]; exact Hlater'.
Qed.

(** The acts of the schedule are the acts that the rows below the header
    hold. *)
Lemma in_get_schedule (all_values : list (list string)) (acts : list Act)
  (a : Act) :
  get_schedule all_values = Returns acts ->
  (In a acts
   <-> exists row,
       In row (skipn 5 all_values)
       /\ act_name a = _get_cell row COL_ARTIST_NAME
       /\ act_name a <> EmptyString
       /\ _parse_time (_get_cell row COL_SCHEDULED_START)
          = Returns (Some (scheduled_start a))
       /\ _parse_time (_get_cell row COL_SCHEDULED_END)
          = Returns (Some (scheduled_end a))
       /\ _parse_time (_get_cell row COL_ACTUAL_START)
          = Returns (actual_start a)
       /\ _parse_time (_get_cell row COL_ACTUAL_END) = Returns (actual_end a)
       /\ notes a = None).
Proof.
  rewrite get_schedule_rows. intros Hacts.
  rewrite (in_acts_in_row_order _ _ a Hacts).
  split; intros [row [Hin H]]; exists row; (split; [exact Hin |]);
    apply act_of_row_some; exact H.
Qed.

(** X13. When [get_schedule] returns, an act is in its result exactly
    when a row below the header holds it: the name is the text of column
    B and is not empty, the scheduled times are what [_parse_time] reads
    in columns D and E, the actual times what it reads in columns F and
    G, [None] when it reads nothing, and there are no notes. *)
Theorem get_schedule_acts_come_from_rows (all_values : list (list string))
  (acts : list Act) (a : Act) :
  get_schedule all_values = Returns acts ->
  (In a acts
   <-> exists row,
       In row (skipn 5 all_values)
       /\ act_name a = _get_cell row COL_ARTIST_NAME
       /\ act_name a <> EmptyString
       /\ _parse_time (_get_cell row COL_SCHEDULED_START)
          = Returns (Some (scheduled_start a))
       /\ _parse_time (_get_cell row COL_SCHEDULED_END)
          = Returns (Some (scheduled_end a))
       /\ _parse_time (_get_cell row COL_ACTUAL_START)
          = Returns (actual_start a)
       /\ _parse_time (_get_cell row COL_ACTUAL_END) = Returns (actual_end a)
       /\ notes a = None).
Proof. apply in_get_schedule. Qed.

Lemma first_named_spec (acts : list Act) (name : string) :
  match first_named acts name with
  | Some a =>
      exists before after,
        acts = before ++ a :: after
        /\ act_name a = name
        /\ Forall (fun b => act_name b <> name) before
  | None => Forall (fun b => act_name b <> name) acts
  end.
Proof.
  induction acts as [| act rest IH]; simpl; [constructor |].
  destruct (String.eqb_spec (act_name act) name) as [Heq | Hne].
  - exists [], rest. repeat split; [exact Heq | constructor].
  - destruct (first_named rest name) as [a |].
    + destruct IH as [before [after [-> [Ha Hbefore]]]].
      exists (act :: before), after.
      repeat split; [exact Ha | constructor; assumption].
    + constructor; assumption.
Qed.

(** [get_act] is the search for the first act that bears the name. *)
Lemma get_act_spec (all_values : list (list string))
  (name : string) :
  (forall a,
      get_act all_values name = Returns (Some a) ->
      act_name a = name
      /\ exists before after,
          get_schedule all_values = Returns (before ++ a :: after)
          /\ Forall (fun b => act_name b <> name) before)
  /\ (get_act all_values name = Returns None
      <-> exists acts,
          get_schedule all_values = Returns acts
          /\ forall b, In b acts -> act_name b <> name)
  /\ (forall e,
      get_act all_values name = Raises e
      <-> get_schedule all_values = Raises e).
Proof.
  unfold get_act.
  destruct (get_schedule all_values) as [acts | e0]; simpl.
  - pose proof (first_named_spec acts name) as Hspec.
    destruct (first_named acts name) as [a |].
    + destruct Hspec as [before [after [Hacts [Ha Hbefore]]]].
      split; [| split].
      * intros a' Heq. inversion Heq. subst a'.
        split; [exact Ha |]. exists before, after.
        split; [rewrite Hacts; reflexivity | exact Hbefore].
      * split; [discriminate |]. intros [acts' [Heq Hnone]]. exfalso.
        inversion Heq. subst acts'.
        apply (Hnone a); [| exact Ha].
        rewrite Hacts. apply in_or_app. right. left. reflexivity.
      * intros e. split; discriminate.
    + split; [discriminate |]. split.
      * split; [| reflexivity]. intros _. exists acts.
        split; [reflexivity |]. apply Forall_forall. exact Hspec.
      * intros e. split; discriminate.
  - split; [discriminate |]. split.
    + split; [discriminate | intros [acts [Heq _]]; discriminate].
    + intros e. split; intros H; inversion H; reflexivity.
Qed.

(** X14. [get_act] gives the first act of the schedule that bears the
    name, and [None] exactly when the schedule is returned and no act of
    it bears the name; it raises exactly what [get_schedule] raises. *)
Theorem get_act_finds_first (all_values : list (list string))
  (name : string) :
  (forall a,
      get_act all_values name = Returns (Some a) ->
      act_name a = name
      /\ exists before after,
          get_schedule all_values = Returns (before ++ a :: after)
          /\ Forall (fun b => act_name b <> name) before)
  /\ (get_act all_values name = Returns None
      <-> exists acts,
          get_schedule all_values = Returns acts
          /\ forall b, In b acts -> act_name b <> name)
  /\ (forall e,
      get_act all_values name = Raises e
      <-> get_schedule all_values = Raises e).
Proof. apply get_act_spec. Qed.

(** The loop of [_find_row] stops at the first row that bears the
    name. *)
Lemma find_row_loop_spec (data_rows : list (list string)) (i : Z)
  (name : string) :
  match find_row_loop data_rows i name with
  | Some row_num =>
      exists before row after,
        data_rows = before ++ row :: after
        /\ row_num = i + Z.of_nat (length before) + HEADER_ROW + 1
        /\ _get_cell row COL_ARTIST_NAME = name
        /\ Forall (fun r => _get_cell r COL_ARTIST_NAME <> name) before
  | None => Forall (fun r => _get_cell r COL_ARTIST_NAME <> name) data_rows
  end.
Proof.
  revert i. induction data_rows as [| row rest IH]; intros i; simpl;
    [constructor |].
  destruct (String.eqb_spec (_get_cell row COL_ARTIST_NAME) name)
    as [Heq | Hne].
  - exists [], row, rest. simpl. repeat split; [lia | exact Heq | constructor].
  - specialize (IH (i + 1)).
    destruct (find_row_loop rest (i + 1) name) as [row_num |].
    + destruct IH as [before [r [after [-> [Hnum [Hr Hbefore]]]]]].
      exists (row :: before), r, after.
      repeat split; [simpl length; lia | exact Hr | constructor; assumption].
    + constructor; assumption.
Qed.

Lemma nth_skipn_5 (all_values : list (list string)) (n : nat) :
  nth n (skipn 5 all_values) [] = nth (n + 5) all_values [].
Proof.
  rewrite nth_skipn. f_equal. lia.
Qed.

(** X15. [_find_row] gives the number, counted from 1, of the first row
    below the header whose cell in column B is the name: the number is at
    least 6 and no more than the number of rows.  It gives [None] exactly
    when no row below the header bears the name.  Whenever [get_act]
    finds an act, [_find_row] finds a row. *)
Theorem find_row_finds_first (all_values : list (list string))
  (name : string) :
  (forall row_num,
      _find_row all_values name = Some row_num ->
      6 <= row_num <= Z.of_nat (length all_values)
      /\ _get_cell (nth (Z.to_nat (row_num - 1)) all_values [])
                   COL_ARTIST_NAME = name
      /\ forall r,
          6 <= r < row_num ->
          _get_cell (nth (Z.to_nat (r - 1)) all_values []) COL_ARTIST_NAME
          <> name)
  /\ (_find_row all_values name = None
      <-> forall row,
          In row (skipn 5 all_values) ->
          _get_cell row COL_ARTIST_NAME <> name)
  /\ (forall a,
      get_act all_values name = Returns (Some a) ->
      exists row_num, _find_row all_values name = Some row_num).
Proof.
  unfold _find_row. cbv zeta.
  change (Z.to_nat HEADER_ROW) with 5%nat.
  pose proof (find_row_loop_spec (skipn 5 all_values) 0 name) as Hspec.
  assert (Hact : forall a,
             get_act all_values name = Returns (Some a) ->
             exists row, In row (skipn 5 all_values)
                         /\ _get_cell row COL_ARTIST_NAME = name).
  { intros a Ha.
    destruct (proj1 (get_act_spec all_values name) a Ha)
      as [Hname [before [after [Hacts _]]]].
    assert (Hin : In a (before ++ a :: after)).
    { apply in_or_app. right. left. reflexivity. }
    apply (in_get_schedule _ _ a Hacts) in Hin
      as [row [Hrow [Hcell _]]].
    exists row. split; [exact Hrow | congruence]. }
  destruct (find_row_loop (skipn 5 all_values) 0 name) as [row_num |].
  - destruct Hspec as [before [row [after [Hrows [Hnum [Hrow Hbefore]]]]]].
    unfold HEADER_ROW in Hnum.
    assert (Hlen : (length before + 5 < length all_values)%nat).
    { assert (Hl : length (skipn 5 all_values)
                   = length (before ++ row :: after)) by (rewrite Hrows; reflexivity).
      rewrite length_skipn, length_app in Hl. simpl in Hl. lia. }
    assert (Hnth : forall n,
               (n <= length before)%nat ->
               nth (n + 5) all_values [] = nth n (before ++ row :: after) []).
    { intros n _. rewrite <- nth_skipn_5, Hrows. reflexivity. }
    split; [| split].
    + intros r Heq. inversion Heq. subst r. split; [lia |]. split.
      * replace (Z.to_nat (row_num - 1)) with (length before + 5)%nat by lia.
        rewrite Hnth by lia. rewrite nth_middle. exact Hrow.
      * intros r Hr.
        replace (Z.to_nat (r - 1)) with (Z.to_nat (r - 6) + 5)%nat by lia.
        rewrite Hnth by lia.
        rewrite app_nth1 by lia.
        rewrite Forall_forall in Hbefore. apply Hbefore, nth_In. lia.
    + split; [discriminate |]. intros Hnone. exfalso.
      apply (Hnone row); [| exact Hrow].
      rewrite Hrows. apply in_or_app. right. left. reflexivity.
    + intros a _. exists row_num. reflexivity.
  - split; [discriminate |]. split.
    + split; [| reflexivity]. intros _. apply Forall_forall. exact Hspec.
    + intros a Ha. exfalso. destruct (Hact a Ha) as [row [Hin Hrow]].
      rewrite Forall_forall in Hspec. exact (Hspec row Hin Hrow).
Qed.

(** X22. [_parse_time] raises exactly when [time] overflows: the text is
    neither empty nor blank, its first two parts between colons are
    numerals, and the hour or the minute is beyond the range of a C
    [int].  [get_schedule] raises with the first row below the header in
    which a scheduled time does. *)
Theorem parse_time_overflow (time_str : string) :
  (forall e,
      _parse_time time_str = Raises e
      <-> e = OverflowError
          /\ time_str <> EmptyString
          /\ strip time_str <> EmptyString
          /\ exists part0 part1 h m,
              nth_error (split (strip time_str) ":") 0 = Some part0
              /\ int_of_str part0 = Some h
              /\ nth_error (split (strip time_str) ":") 1 = Some part1
              /\ int_of_str part1 = Some m
              /\ (h < - 2147483648 \/ 2147483647 < h
                  \/ m < - 2147483648 \/ 2147483647 < m))
  /\ (forall top row rest,
      length top = 5%nat ->
      _parse_time (_get_cell row COL_SCHEDULED_START) = Raises OverflowError
      \/ (exists t,
             _parse_time (_get_cell row COL_SCHEDULED_START) = Returns t)
         /\ _parse_time (_get_cell row COL_SCHEDULED_END)
            = Raises OverflowError ->
      get_schedule (top ++ row :: rest) = Raises OverflowError).
Proof.
  split.
  - intros e. unfold _parse_time.
    destruct (negb (truthy_str time_str)
              || String.eqb (strip time_str) EmptyString) eqn:Hguard.
    + split; [discriminate |].
      intros [_ [Hfull [Hstrip _]]]. exfalso.
      apply orb_true_iff in Hguard as [Hempty | Hblank].
      * destruct time_str; [apply Hfull; reflexivity | discriminate].
      * apply String.eqb_eq in Hblank. contradiction.
    + apply orb_false_iff in Hguard as [Hfull Hstrip].
      assert (Hfull' : time_str <> EmptyString)
        by (intros ->; discriminate).
      assert (Hstrip' : strip time_str <> EmptyString)
        by (apply String.eqb_neq; exact Hstrip).
      cbv zeta. unfold item, int.
      destruct (nth_error (split (strip time_str) ":") 0) as [part0 |]
        eqn:Hp0; cbn [and_then];
        [| split; [discriminate
                  | intros [_ [_ [_ [p0 [p1 [h [m [H _]]]]]]]];
                    discriminate]].
      destruct (int_of_str part0) as [h |] eqn:Hh0; cbn [and_then];
        [| split; [discriminate
                  | intros [_ [_ [_ [p0 [p1 [h [m [H0 [H _]]]]]]]]];
                    congruence]].
      destruct (nth_error (split (strip time_str) ":") 1) as [part1 |]
        eqn:Hp1; cbn [and_then];
        [| split; [discriminate
                  | intros [_ [_ [_ [p0 [p1 [h' [m [_ [_ [H _]]]]]]]]]];
                    discriminate]].
      destruct (int_of_str part1) as [m |] eqn:Hm1; cbn [and_then];
        [| split; [discriminate
                  | intros [_ [_ [_ [p0 [p1 [h' [m [_ [_ [H1 [H _]]]]]]]]]]];
                    congruence]].
      assert (Hfits : fits_c_int h && fits_c_int m = false
                      <-> (h < - 2147483648 \/ 2147483647 < h
                           \/ m < - 2147483648 \/ 2147483647 < m)).
      { unfold fits_c_int.
        destruct (Z.leb_spec (- 2147483648) h), (Z.leb_spec h 2147483647),
          (Z.leb_spec (- 2147483648) m), (Z.leb_spec m 2147483647);
          simpl; split; intros Hcase; try discriminate; try reflexivity; lia. }
      pose proof (new_time_overflow h m) as Hover.
      destruct (new_time h m) as [t | []] eqn:Hnew.
      * split; [discriminate |].
        intros [_ [_ [_ [p0 [p1 [h' [m' [H0 [Hh [H1 [Hm Hout]]]]]]]]]]].
        assert (h' = h) by congruence. assert (m' = m) by congruence.
        subst h' m'. apply Hfits, Hover in Hout. discriminate.
      * split; [discriminate |].
        intros [_ [_ [_ [p0 [p1 [h' [m' [H0 [Hh [H1 [Hm Hout]]]]]]]]]]].
        assert (h' = h) by congruence. assert (m' = m) by congruence.
        subst h' m'. apply Hfits, Hover in Hout. discriminate.
      * split; [discriminate |].
        intros [_ [_ [_ [p0 [p1 [h' [m' [H0 [Hh [H1 [Hm Hout]]]]]]]]]]].
        assert (h' = h) by congruence. assert (m' = m) by congruence.
        subst h' m'. apply Hfits, Hover in Hout. discriminate.
      * split.
        -- intros H. inversion H. subst e.
           split; [reflexivity |]. split; [exact Hfull' |].
           split; [exact Hstrip' |].
           exists part0, part1, h, m.
           split; [reflexivity |]. split; [exact Hh0 |].
           split; [reflexivity |]. split; [exact Hm1 |].
           apply Hfits, Hover. reflexivity.
        -- intros [-> _]. reflexivity.
  - intros top row rest Htop Hraises.
    rewrite get_schedule_rows.
    assert (Hskip : skipn 5 (top ++ row :: rest) = row :: rest).
    { rewrite <- Htop. rewrite skipn_app, skipn_all, Nat.sub_diag.
      reflexivity. }
    rewrite Hskip. simpl. unfold act_of_row.
    destruct Hraises as [-> | [[t ->] ->]]; reflexivity.
Qed.

End MoreSheetProperties.

(** ** The store: writing and reading back *)
Section StoreProperties.

Import Sheets SheetsSpec StoreSpec.

Context {builtins : StrBuiltins} {sheets : Worksheet}.

Local Open Scope result_scope.

Lemma clock_text_truthy (h m : Z) : truthy_str (clock_text h m) = true.
Proof.
  unfold clock_text. destruct (two_digits h); reflexivity.
Qed.

Lemma clock_text_not_empty (h m : Z) :
  String.eqb (clock_text h m) EmptyString = false.
Proof.
  unfold clock_text. destruct (two_digits h); reflexivity.
Qed.

Lemma new_time_in_range (h m : Z) :
  0 <= h < 24 -> 0 <= m < 60 -> new_time h m = Returns (mk_time h m 0 0).
Proof.
  intros Hh Hm. unfold new_time, fits_c_int.
  destruct (Z.leb_spec (- 2147483648) h); [| lia].
  destruct (Z.leb_spec h 2147483647); [| lia].
  destruct (Z.leb_spec (- 2147483648) m); [| lia].
  destruct (Z.leb_spec m 2147483647); [| lia].
  destruct (Z.leb_spec 0 h); [| lia]. destruct (Z.ltb_spec h 24); [| lia].
  destruct (Z.leb_spec 0 m); [| lia]. destruct (Z.ltb_spec m 60); [| lia].
  reflexivity.
Qed.

(** What [_format_time] writes, [_parse_time] reads. *)
Lemma parse_clock_text (h m : Z) :
  reads_clock_text builtins ->
  0 <= h < 24 -> 0 <= m < 60 ->
  _parse_time (clock_text h m) = Returns (Some (mk_time h m 0 0)).
Proof.
  intros Hreads Hh Hm.
  destruct (Hreads h m Hh Hm) as [Hstrip [Hsplit [Hinth Hintm]]].
  unfold _parse_time.
  rewrite clock_text_truthy, Hstrip, clock_text_not_empty, Hsplit.
  unfold item, int. simpl.
  rewrite Hinth. simpl. rewrite Hintm. simpl.
  rewrite (new_time_in_range h m Hh Hm). reflexivity.
Qed.

(** X16. A time that [_format_time] wrote is read back by [_parse_time]
    to the minute: the hour and the minute are kept and the seconds are
    dropped.  No time is written as the empty text, which is read back
    as no time. *)
Theorem parse_format_round_trip (t : option time) :
  reads_clock_text builtins ->
  (forall t0, t = Some t0 -> hour_minute_valid t0) ->
  _parse_time (_format_time t) = Returns (option_map to_the_minute t).
Proof.
  intros Hreads Hvalid. destruct t as [t0 |]; [| reflexivity].
  destruct (Hvalid t0 eq_refl) as [Hh Hm].
  apply (parse_clock_text (hour t0) (minute t0) Hreads Hh Hm).
Qed.

Lemma find_row_none (all_values : list (list string)) (name : string) :
  (forall row,
      In row (skipn 5 all_values) -> _get_cell row COL_ARTIST_NAME <> name) ->
  _find_row all_values name = None.
Proof.
  intros Hnone. unfold _find_row. cbv zeta.
  change (Z.to_nat HEADER_ROW) with 5%nat.
  pose proof (find_row_loop_spec (skipn 5 all_values) 0 name) as Hspec.
  destruct (find_row_loop (skipn 5 all_values) 0 name) as [row_num |];
    [| reflexivity].
  destruct Hspec as [before [row [after [Hrows [_ [Hrow _]]]]]].
  exfalso. apply (Hnone row); [| exact Hrow].
  rewrite Hrows. apply in_or_app. right. left. reflexivity.
Qed.

(** X17. When no row below the header bears the name in column B, the
    three updates return [None] and leave the worksheet as it is: nothing
    is written, and nothing is read that could raise. *)
Theorem updates_of_unknown_act (sheet : worksheet) (name : string)
  (actual_time : time) :
  (forall row,
      In row (skipn 5 (get_all_values sheet)) ->
      _get_cell row COL_ARTIST_NAME <> name) ->
  update_actual_start sheet name actual_time = (Returns None, sheet)
  /\ update_actual_end sheet name actual_time = (Returns None, sheet)
  /\ clear_actual_times sheet name = (Returns None, sheet).
Proof.
  intros Hnone.
  unfold update_actual_start, update_actual_end, clear_actual_times.
  rewrite (find_row_none _ _ Hnone). repeat split.
Qed.

(** *** Reading a sheet in which one row was rewritten *)

Lemma act_of_row_rewritten (row row' : list string) (a : Act)
  (started ended : option time) :
  act_of_row row = Returns (Some a) ->
  _get_cell row' COL_ARTIST_NAME = _get_cell row COL_ARTIST_NAME ->
  _get_cell row' COL_SCHEDULED_START = _get_cell row COL_SCHEDULED_START ->
  _get_cell row' COL_SCHEDULED_END = _get_cell row COL_SCHEDULED_END ->
  _parse_time (_get_cell row' COL_ACTUAL_START) = Returns started ->
  _parse_time (_get_cell row' COL_ACTUAL_END) = Returns ended ->
  act_of_row row' = Returns (Some (with_actual_times a started ended)).
Proof.
  intros Ha Hname Hstart Hend Hstarted Hended.
  apply act_of_row_some in Ha as [Hn [Hne [Hs [He [_ [_ Hno]]]]]].
  apply act_of_row_some. simpl.
  rewrite Hname, Hstart, Hend. repeat split; assumption.
Qed.

Lemma acts_of_other_names (rows : list (list string)) (name : string)
  (acts : list Act) :
  Forall (fun r => _get_cell r COL_ARTIST_NAME <> name) rows ->
  acts_in_row_order rows = Returns acts ->
  Forall (fun b => act_name b <> name) acts.
Proof.
  intros Hrows Hacts. apply Forall_forall. intros b Hb.
  apply (in_acts_in_row_order _ _ b Hacts) in Hb as [row [Hin Hrow]].
  apply act_of_row_some in Hrow as [Hname _].
  rewrite Forall_forall in Hrows. rewrite Hname. apply Hrows, Hin.
Qed.

Lemma first_named_skips (l1 l2 : list Act) (name : string) :
  Forall (fun b => act_name b <> name) l1 ->
  first_named (l1 ++ l2) name = first_named l2 name.
Proof.
  intros H. induction H as [| b rest Hb _ IH]; simpl; [reflexivity |].
  destruct (String.eqb_spec (act_name b) name); [contradiction | exact IH].
Qed.

Lemma with_own_actual_times (a : Act) :
  with_actual_times a (actual_start a) (actual_end a) = a.
Proof. destruct a. reflexivity. Qed.

Lemma act_of_row_same_cells (row row' : list string) :
  (forall c, 1 <= c -> _get_cell row' c = _get_cell row c) ->
  act_of_row row' = act_of_row row.
Proof.
  intros Hsame. unfold act_of_row.
  rewrite !Hsame
    by (unfold COL_ARTIST_NAME, COL_SCHEDULED_START, COL_SCHEDULED_END,
               COL_ACTUAL_START, COL_ACTUAL_END; lia).
  reflexivity.
Qed.

Lemma acts_same_cells (rows rows' : list (list string)) :
  length rows' = length rows ->
  (forall j c,
      (j < length rows)%nat -> 1 <= c ->
      _get_cell (nth j rows' []) c = _get_cell (nth j rows []) c) ->
  acts_in_row_order rows' = acts_in_row_order rows.
Proof.
  revert rows'. induction rows as [| row rest IH]; intros rows' Hlen Hsame.
  - destruct rows'; [reflexivity | discriminate].
  - destruct rows' as [| row' rest']; [discriminate |]. simpl.
    rewrite (act_of_row_same_cells row row')
      by (intros c Hc; apply (Hsame 0%nat c); simpl; lia).
    rewrite (IH rest').
    + reflexivity.
    + simpl in Hlen. lia.
    + intros j c Hj Hc. apply (Hsame (S j) c); simpl; lia.
Qed.

(** The schedule of a grid [grid'] that is [grid] but for the actual
    times of the row that [_find_row] finds, when the schedule of [grid]
    can be read and the new actual times as well: the act of that row
    with the new actual times, between the same acts, none of which
    before it bears the name. *)
Lemma schedule_after_rewrite (grid grid' : list (list string)) (name : string)
  (row_num : Z) (a : Act) (acts : list Act) (started ended : option time) :
  _find_row grid name = Some row_num ->
  act_of_row (nth (Z.to_nat (row_num - 1)) grid []) = Returns (Some a) ->
  get_schedule grid = Returns acts ->
  length grid' = length grid ->
  (forall i c,
      1 <= c ->
      i <> Z.to_nat (row_num - 1) \/ (c <> COL_ACTUAL_START /\ c <> COL_ACTUAL_END) ->
      cell grid' i c = cell grid i c) ->
  _parse_time (cell grid' (Z.to_nat (row_num - 1)) COL_ACTUAL_START)
  = Returns started ->
  _parse_time (cell grid' (Z.to_nat (row_num - 1)) COL_ACTUAL_END)
  = Returns ended ->
  6 <= row_num <= Z.of_nat (length grid)
  /\ act_name a = name
  /\ exists earlier later,
      acts = earlier ++ a :: later
      /\ Forall (fun b => act_name b <> name) earlier
      /\ get_schedule grid'
         = Returns (earlier ++ with_actual_times a started ended :: later).
Proof.
  unfold _find_row. cbv zeta. change (Z.to_nat HEADER_ROW) with 5%nat.
  intros Hfind Hact Hacts Hlen Hsame Hstarted Hended.
  pose proof (find_row_loop_spec (skipn 5 grid) 0 name) as Hspec.
  rewrite Hfind in Hspec.
  destruct Hspec as [before [row [after [Hrows [Hnum [Hrow Hbefore]]]]]].
  unfold HEADER_ROW in Hnum.
  set (n := length before) in *.
  assert (Hidx : Z.to_nat (row_num - 1) = (n + 5)%nat) by lia.
  rewrite Hidx in *.
  assert (Hlen5 : length (skipn 5 grid) = (n + S (length after))%nat).
  { rewrite Hrows, length_app. reflexivity. }
  assert (Hn : (n + 5 < length grid)%nat)
    by (rewrite length_skipn in Hlen5; lia).
  assert (Hold : forall j, nth (j + 5) grid [] = nth j (before ++ row :: after) []).
  { intros j. rewrite <- nth_skipn_5, Hrows. reflexivity. }
  assert (Hrow_n : nth (n + 5) grid [] = row).
  { rewrite Hold. unfold n. apply nth_middle. }
  rewrite Hrow_n in Hact.
  assert (Hn' : (n < length (skipn 5 grid'))%nat)
    by (rewrite length_skipn; lia).
  destruct (nth_split (skipn 5 grid') [] Hn') as [l1 [l2 [Hrows' Hl1]]].
  rewrite nth_skipn_5 in Hrows'.
  unfold cell in Hstarted, Hended.
  set (row' := nth (n + 5) grid' []) in *.
  assert (Hl2 : length l2 = length after).
  { assert (Hl : length (skipn 5 grid') = length (l1 ++ row' :: l2))
      by (rewrite Hrows'; reflexivity).
    rewrite length_skipn, length_app in Hl. simpl in Hl.
    rewrite length_skipn in Hlen5. lia. }
  assert (Hnew : forall j, nth (j + 5) grid' [] = nth j (l1 ++ row' :: l2) []).
  { intros j. rewrite <- nth_skipn_5, Hrows'. reflexivity. }
  assert (Hacts1 : acts_in_row_order l1 = acts_in_row_order before).
  { apply acts_same_cells; [exact Hl1 |].
    intros j c Hj Hc. fold n in Hj.
    rewrite <- (app_nth1 l1 (row' :: l2)) by lia.
    rewrite <- (app_nth1 before (row :: after)) by (fold n; lia).
    rewrite <- Hnew, <- Hold.
    apply (Hsame (j + 5)%nat c Hc). left. lia. }
  assert (Hacts2 : acts_in_row_order l2 = acts_in_row_order after).
  { apply acts_same_cells; [exact Hl2 |].
    intros j c Hj Hc.
    assert (H1 : nth j l2 [] = nth (n + S j + 5) grid' []).
    { rewrite Hnew, app_nth2 by lia.
      replace (n + S j - length l1)%nat with (S j) by lia. reflexivity. }
    assert (H2 : nth j after [] = nth (n + S j + 5) grid []).
    { rewrite Hold, app_nth2 by (fold n; lia).
      replace (n + S j - length before)%nat with (S j) by (fold n; lia).
      reflexivity. }
    rewrite H1, H2. apply (Hsame (n + S j + 5)%nat c Hc). left. lia. }
  assert (Hcell : forall c,
             1 <= c -> c <> COL_ACTUAL_START -> c <> COL_ACTUAL_END ->
             _get_cell row' c = _get_cell row c).
  { intros c Hc H6 H7.
    change (cell grid' (n + 5) c = _get_cell row c).
    rewrite Hsame; [| exact Hc | right; split; assumption].
    unfold cell. rewrite Hrow_n. reflexivity. }
  assert (Hact' : act_of_row row'
                  = Returns (Some (with_actual_times a started ended))).
  { apply (act_of_row_rewritten row row' a started ended Hact);
      try assumption;
      apply Hcell; unfold COL_ARTIST_NAME, COL_SCHEDULED_START,
                   COL_SCHEDULED_END, COL_ACTUAL_START, COL_ACTUAL_END; lia. }
  rewrite get_schedule_rows, Hrows in Hacts.
  apply acts_in_row_order_split in Hacts
    as [earlier [rest [Hearlier [Hrest ->]]]].
  apply acts_in_row_order_cons in Hrest as [o [later [Ho [Hlater ->]]]].
  rewrite Hact in Ho. inversion Ho. subst o.
  split; [lia |]. split.
  { apply act_of_row_some in Hact as [Hname _]. congruence. }
  exists earlier, later. split; [reflexivity |]. split.
  { exact (acts_of_other_names before name earlier Hbefore Hearlier). }
  rewrite get_schedule_rows, Hrows', acts_in_row_order_app.
  simpl. rewrite Hact', Hacts1, Hacts2, Hearlier, Hlater. reflexivity.
Qed.

(** The act that [get_act] finds in a schedule in which the first act
    that bears the name is [a]. *)
Lemma get_act_of_schedule (grid : list (list string)) (name : string)
  (a : Act) (earlier later : list Act) :
  get_schedule grid = Returns (earlier ++ a :: later) ->
  Forall (fun b => act_name b <> name) earlier ->
  act_name a = name ->
  get_act grid name = Returns (Some a).
Proof.
  intros Hacts Hearlier Hname. unfold get_act. rewrite Hacts. simpl.
  rewrite (first_named_skips _ _ name Hearlier). simpl.
  rewrite Hname, String.eqb_refl. reflexivity.
Qed.

(** *** Writing the actual times of a row *)

(** One write in column F or G of a row of the sheet. *)
Lemma write_one_cell (sheet : worksheet) (row_num col : Z) (value : string) :
  stores_text sheets ->
  1 <= row_num <= Z.of_nat (length (get_all_values sheet)) ->
  col = COL_ACTUAL_START \/ col = COL_ACTUAL_END ->
  let grid := get_all_values sheet in
  let grid' := get_all_values (update_cell sheet row_num col value) in
  let n := Z.to_nat (row_num - 1) in
  length grid' = length grid
  /\ (forall i c,
         1 <= c ->
         i <> n \/ (c <> COL_ACTUAL_START /\ c <> COL_ACTUAL_END) ->
         cell grid' i c = cell grid i c)
  /\ cell grid' n col = value
  /\ (forall c, 1 <= c -> c <> col -> cell grid' n c = cell grid n c).
Proof.
  intros Hstores Hin Hcol grid grid' n.
  assert (Hc1 : 1 <= col)
    by (unfold COL_ACTUAL_START, COL_ACTUAL_END in Hcol; lia).
  destruct (Hstores sheet row_num col value Hin Hc1) as [Hlen Hcells].
  fold grid in Hlen, Hcells. fold grid' in Hlen, Hcells.
  split; [exact Hlen |]. split; [| split].
  - intros i c Hc Hother. rewrite (Hcells i c Hc).
    destruct (Z.eqb_spec (Z.of_nat i) (row_num - 1)) as [Hi | Hi];
      [| reflexivity].
    destruct (Z.eqb_spec c col) as [Hcc | Hcc]; [| reflexivity].
    exfalso. destruct Hother as [Hne | [H6 H7]]; [unfold n in Hne; lia |].
    destruct Hcol; congruence.
  - rewrite (Hcells n col Hc1).
    replace (Z.of_nat n =? row_num - 1) with true
      by (symmetry; apply Z.eqb_eq; unfold n; lia).
    rewrite Z.eqb_refl. reflexivity.
  - intros c Hc Hne. rewrite (Hcells n c Hc).
    destruct (Z.eqb_spec c col); [contradiction |].
    rewrite andb_false_r. reflexivity.
Qed.

(** The two writes of [clear_actual_times]. *)
Lemma clear_both_cells (sheet : worksheet) (row_num : Z) :
  stores_text sheets ->
  1 <= row_num <= Z.of_nat (length (get_all_values sheet)) ->
  let grid := get_all_values sheet in
  let grid' :=
    get_all_values
      (update_cell (update_cell sheet row_num COL_ACTUAL_START EmptyString)
                   row_num COL_ACTUAL_END EmptyString) in
  let n := Z.to_nat (row_num - 1) in
  length grid' = length grid
  /\ (forall i c,
         1 <= c ->
         i <> n \/ (c <> COL_ACTUAL_START /\ c <> COL_ACTUAL_END) ->
         cell grid' i c = cell grid i c)
  /\ cell grid' n COL_ACTUAL_START = EmptyString
  /\ cell grid' n COL_ACTUAL_END = EmptyString.
Proof.
  intros Hstores Hin grid grid' n.
  destruct (write_one_cell sheet row_num COL_ACTUAL_START EmptyString
              Hstores Hin (or_introl eq_refl))
    as [Hlen1 [Hsame1 [Hnew1 _]]].
  set (sheet1 := update_cell sheet row_num COL_ACTUAL_START EmptyString) in *.
  assert (Hin1 : 1 <= row_num <= Z.of_nat (length (get_all_values sheet1)))
    by (rewrite Hlen1; exact Hin).
  destruct (write_one_cell sheet1 row_num COL_ACTUAL_END EmptyString
              Hstores Hin1 (or_intror eq_refl))
    as [Hlen2 [Hsame2 [Hnew2 Hrest2]]].
  fold grid' in Hlen2, Hsame2, Hnew2, Hrest2. fold n in Hsame1, Hsame2, Hnew1, Hnew2, Hrest2.
  split; [rewrite Hlen2; exact Hlen1 |]. split; [| split].
  - intros i c Hc Hother. rewrite Hsame2 by assumption.
    apply Hsame1; assumption.
  - rewrite Hrest2 by (unfold COL_ACTUAL_START, COL_ACTUAL_END; lia).
    exact Hnew1.
  - exact Hnew2.
Qed.

(** What the three updates leave of a sheet whose schedule can be read:
    the row found, the worksheet written, and the schedule read after
    the write, for each of the three. *)
Lemma updates_spec (sheet : worksheet) (name : string) (t : time)
  (row_num : Z) (a : Act) (acts : list Act) :
  reads_clock_text builtins ->
  stores_text sheets ->
  hour_minute_valid t ->
  _find_row (get_all_values sheet) name = Some row_num ->
  act_of_row (nth (Z.to_nat (row_num - 1)) (get_all_values sheet) [])
  = Returns (Some a) ->
  get_schedule (get_all_values sheet) = Returns acts ->
  6 <= row_num
  /\ act_name a = name
  /\ exists earlier later,
      acts = earlier ++ a :: later
      /\ Forall (fun b => act_name b <> name) earlier
      /\ get_schedule
           (get_all_values
              (update_cell sheet row_num COL_ACTUAL_START
                           (_format_time (Some t))))
         = Returns
             (earlier
              ++ with_actual_times a (Some (to_the_minute t)) (actual_end a)
              :: later)
      /\ get_schedule
           (get_all_values
              (update_cell sheet row_num COL_ACTUAL_END
                           (_format_time (Some t))))
         = Returns
             (earlier
              ++ with_actual_times a (actual_start a) (Some (to_the_minute t))
              :: later)
      /\ get_schedule
           (get_all_values
              (update_cell
                 (update_cell sheet row_num COL_ACTUAL_START EmptyString)
                 row_num COL_ACTUAL_END EmptyString))
         = Returns (earlier ++ with_actual_times a None None :: later).
Proof.
  intros Hreads Hstores [Hh Hm] Hfind Hact Hacts.
  set (grid := get_all_values sheet) in *.
  set (n := Z.to_nat (row_num - 1)) in *.
  pose proof (proj1 (act_of_row_some _ a) Hact)
    as [_ [_ [_ [_ [Hstart [Hend _]]]]]].
  fold (cell grid n COL_ACTUAL_START) in Hstart.
  fold (cell grid n COL_ACTUAL_END) in Hend.
  destruct (schedule_after_rewrite grid grid name row_num a acts
              (actual_start a) (actual_end a) Hfind Hact Hacts eq_refl
              (fun _ _ _ _ => eq_refl) Hstart Hend)
    as [Hrange [Hname [earlier [later [Hsplit [Hearlier _]]]]]].
  assert (Hin : 1 <= row_num <= Z.of_nat (length (get_all_values sheet)))
    by (fold grid; lia).
  assert (Hparse : _parse_time (_format_time (Some t))
                   = Returns (Some (to_the_minute t))).
  { apply (parse_clock_text (hour t) (minute t) Hreads Hh Hm). }
  assert (Hunique : forall earlier' later' x,
             acts = earlier' ++ a :: later' ->
             Forall (fun b => act_name b <> name) earlier' ->
             earlier ++ x :: later = earlier' ++ x :: later').
  { intros earlier' later' x Hsplit' Hearlier'.
    assert (Heq : earlier = earlier' /\ later = later');
      [| destruct Heq as [-> ->]; reflexivity].
    rewrite Hsplit in Hsplit'. clear - Hsplit' Hearlier Hearlier' Hname.
    revert earlier' Hsplit' Hearlier'.
    induction Hearlier as [| b rest Hb _ IH]; intros earlier' Hsplit' Hearlier'.
    - destruct Hearlier' as [| b' rest' Hb' _].
      + simpl in Hsplit'. inversion Hsplit'. split; reflexivity.
      + simpl in Hsplit'. inversion Hsplit'. subst b'. contradiction.
    - destruct Hearlier' as [| b' rest' Hb' Hrest'].
      + simpl in Hsplit'. inversion Hsplit'. subst b. contradiction.
      + simpl in Hsplit'. inversion Hsplit' as [[Hbb Htail]].
        destruct (IH rest' Htail Hrest') as [-> ->]. split; reflexivity. }
  split; [lia |]. split; [exact Hname |].
  exists earlier, later. split; [exact Hsplit |]. split; [exact Hearlier |].
  split; [| split].
  - destruct (write_one_cell sheet row_num COL_ACTUAL_START
                (_format_time (Some t)) Hstores Hin (or_introl eq_refl))
      as [Hlen [Hsame [Hnew Hrest]]].
    fold grid n in Hlen, Hsame, Hnew, Hrest.
    destruct (schedule_after_rewrite grid _ name row_num a acts
                (Some (to_the_minute t)) (actual_end a)
                Hfind Hact Hacts Hlen Hsame)
      as [_ [_ [earlier' [later' [Hsplit' [Hearlier' Hnew']]]]]].
    + fold n. rewrite Hnew. exact Hparse.
    + fold n.
      rewrite Hrest by (unfold COL_ACTUAL_START, COL_ACTUAL_END; lia).
      exact Hend.
    + rewrite Hnew'. f_equal. symmetry.
      apply Hunique; assumption.
  - destruct (write_one_cell sheet row_num COL_ACTUAL_END
                (_format_time (Some t)) Hstores Hin (or_intror eq_refl))
      as [Hlen [Hsame [Hnew Hrest]]].
    fold grid n in Hlen, Hsame, Hnew, Hrest.
    destruct (schedule_after_rewrite grid _ name row_num a acts
                (actual_start a) (Some (to_the_minute t))
                Hfind Hact Hacts Hlen Hsame)
      as [_ [_ [earlier' [later' [Hsplit' [Hearlier' Hnew']]]]]].
    + fold n.
      rewrite Hrest by (unfold COL_ACTUAL_START, COL_ACTUAL_END; lia).
      exact Hstart.
    + fold n. rewrite Hnew. exact Hparse.
    + rewrite Hnew'. f_equal. symmetry.
      apply Hunique; assumption.
  - destruct (clear_both_cells sheet row_num Hstores Hin)
      as [Hlen [Hsame [Hnew6 Hnew7]]].
    fold grid n in Hlen, Hsame, Hnew6, Hnew7.
    destruct (schedule_after_rewrite grid _ name row_num a acts None None
                Hfind Hact Hacts Hlen Hsame)
      as [_ [_ [earlier' [later' [Hsplit' [Hearlier' Hnew']]]]]].
    + fold n. rewrite Hnew6. reflexivity.
    + fold n. rewrite Hnew7. reflexivity.
    + rewrite Hnew'. f_equal. symmetry.
      apply Hunique; assumption.
Qed.

(** X18. On a worksheet that hands back what was written and whose
    schedule can be read, for an act whose row [_find_row] finds:
    [update_actual_start] returns the act with the actual start set to
    the time given, cut to the minute, and nothing else changed;
    [update_actual_end] does the same for the actual end;
    [clear_actual_times] returns the act with no actual times.  Each
    writes in the row found, which is below the header, in columns F
    and G alone. *)
Theorem updates_read_back (sheet : worksheet) (name : string) (t : time)
  (row_num : Z) (a : Act) (acts : list Act) :
  reads_clock_text builtins ->
  stores_text sheets ->
  hour_minute_valid t ->
  _find_row (get_all_values sheet) name = Some row_num ->
  act_of_row (nth (Z.to_nat (row_num - 1)) (get_all_values sheet) [])
  = Returns (Some a) ->
  get_schedule (get_all_values sheet) = Returns acts ->
  6 <= row_num
  /\ get_act (get_all_values sheet) name = Returns (Some a)
  /\ update_actual_start sheet name t
     = (Returns
          (Some (with_actual_times a (Some (to_the_minute t)) (actual_end a))),
        update_cell sheet row_num COL_ACTUAL_START (_format_time (Some t)))
  /\ update_actual_end sheet name t
     = (Returns
          (Some (with_actual_times a (actual_start a) (Some (to_the_minute t)))),
        update_cell sheet row_num COL_ACTUAL_END (_format_time (Some t)))
  /\ clear_actual_times sheet name
     = (Returns (Some (with_actual_times a None None)),
        update_cell
          (update_cell sheet row_num COL_ACTUAL_START EmptyString)
          row_num COL_ACTUAL_END EmptyString).
Proof.
  intros Hreads Hstores Hvalid Hfind Hact Hacts.
  destruct (updates_spec sheet name t row_num a acts Hreads Hstores Hvalid
              Hfind Hact Hacts)
    as [Hrow [Hname [earlier [later [Hsplit [Hearlier
         [Hstart [Hend Hclear]]]]]]]].
  split; [exact Hrow |]. split; [| split; [| split]].
  - apply (get_act_of_schedule _ name a earlier later);
      [rewrite Hacts, Hsplit; reflexivity | exact Hearlier | exact Hname].
  - unfold update_actual_start. cbv zeta. rewrite Hfind. f_equal.
    apply (get_act_of_schedule _ name _ earlier later Hstart Hearlier Hname).
  - unfold update_actual_end. cbv zeta. rewrite Hfind. f_equal.
    apply (get_act_of_schedule _ name _ earlier later Hend Hearlier Hname).
  - unfold clear_actual_times. cbv zeta. rewrite Hfind. f_equal.
    apply (get_act_of_schedule _ name _ earlier later Hclear Hearlier Hname).
Qed.

(** X21. On a worksheet that hands back what was written and whose
    schedule can be read, an update changes one act of the schedule and
    no other: the schedule read after [update_actual_start],
    [update_actual_end] or [clear_actual_times] is the schedule read
    before with the act of the row found replaced, in its place, by the
    act with the new actual times. *)
Theorem updates_change_one_act (sheet : worksheet) (name : string) (t : time)
  (row_num : Z) (a : Act) (acts : list Act) :
  reads_clock_text builtins ->
  stores_text sheets ->
  hour_minute_valid t ->
  _find_row (get_all_values sheet) name = Some row_num ->
  act_of_row (nth (Z.to_nat (row_num - 1)) (get_all_values sheet) [])
  = Returns (Some a) ->
  get_schedule (get_all_values sheet) = Returns acts ->
  exists earlier later,
    acts = earlier ++ a :: later
    /\ get_schedule
         (get_all_values (snd (update_actual_start sheet name t)))
       = Returns
           (earlier
            ++ with_actual_times a (Some (to_the_minute t)) (actual_end a)
            :: later)
    /\ get_schedule
         (get_all_values (snd (update_actual_end sheet name t)))
       = Returns
           (earlier
            ++ with_actual_times a (actual_start a) (Some (to_the_minute t))
            :: later)
    /\ get_schedule (get_all_values (snd (clear_actual_times sheet name)))
       = Returns (earlier ++ with_actual_times a None None :: later).
Proof.
  intros Hreads Hstores Hvalid Hfind Hact Hacts.
  destruct (updates_spec sheet name t row_num a acts Hreads Hstores Hvalid
              Hfind Hact Hacts)
    as [_ [_ [earlier [later [Hsplit [_ [Hstart [Hend Hclear]]]]]]]].
  exists earlier, later. split; [exact Hsplit |].
  unfold update_actual_start, update_actual_end, clear_actual_times.
  cbv zeta. rewrite Hfind. cbn [snd].
  split; [exact Hstart |]. split; [exact Hend | exact Hclear].
Qed.

End StoreProperties.

(** ** The plain built-ins and the grid meet the assumptions *)

Lemma plain_reads_clock_text :
  StoreSpec.reads_clock_text Sheets.Plain.builtins.
Proof.
  intros h m Hh Hm.
  assert (Hi : exists i, (i < 24)%nat /\ h = Z.of_nat i)
    by (exists (Z.to_nat h); lia).
  assert (Hj : exists j, (j < 60)%nat /\ m = Z.of_nat j)
    by (exists (Z.to_nat m); lia).
  destruct Hi as [i [Hi ->]]. destruct Hj as [j [Hj ->]]. clear Hh Hm.
  do 24 (destruct i as [| i];
         [ do 60 (destruct j as [| j];
                  [vm_compute; repeat split; reflexivity |]);
           exfalso; lia |]).
  exfalso. lia.
Qed.

Lemma set_nth_length {A : Type} (filler x : A) (n : nat) (l : list A) :
  (n < length l)%nat -> length (Sheets.Grid.set_nth filler n x l) = length l.
Proof.
  revert l. induction n as [| n IH]; intros [| y rest]; simpl; try lia.
  intros Hn. rewrite IH; lia.
Qed.

Lemma nth_set_nth {A : Type} (filler x : A) (n i : nat) (l : list A) :
  nth i (Sheets.Grid.set_nth filler n x l) filler
  = if Nat.eqb i n then x else nth i l filler.
Proof.
  revert i l. induction n as [| n IH]; intros i l.
  - destruct l as [| y rest]; destruct i as [| i]; simpl; try reflexivity.
    destruct i; reflexivity.
  - destruct l as [| y rest]; destruct i as [| i]; simpl; try reflexivity.
    + rewrite IH. destruct (Nat.eqb i n); [reflexivity |].
      destruct i; reflexivity.
    + apply IH.
Qed.

Lemma get_cell_nth (row : list string) (c : Z) :
  1 <= c ->
  Sheets._get_cell row c = nth (Z.to_nat (c - 1)) row EmptyString.
Proof.
  intros Hc. unfold Sheets._get_cell. cbv zeta.
  destruct (Z.ltb_spec (c - 1) (Z.of_nat (length row))); [reflexivity |].
  symmetry. apply nth_overflow. lia.
Qed.

Lemma grid_stores_text : StoreSpec.stores_text Sheets.Grid.sheets.
Proof.
  intros sheet row col value Hrow Hcol. simpl in *.
  unfold Sheets.Grid.update_cell. cbv zeta. split.
  - apply set_nth_length. lia.
  - intros r c Hc. unfold StoreSpec.cell.
    rewrite nth_set_nth.
    destruct (Nat.eqb_spec r (Z.to_nat (row - 1))) as [-> | Hne].
    + replace (Z.of_nat (Z.to_nat (row - 1)) =? row - 1) with true
        by (symmetry; apply Z.eqb_eq; lia).
      rewrite !get_cell_nth by exact Hc. rewrite nth_set_nth. simpl.
      destruct (Nat.eqb_spec (Z.to_nat (c - 1)) (Z.to_nat (col - 1)));
        destruct (Z.eqb_spec c col); try reflexivity; exfalso; lia.
    + replace (Z.of_nat r =? row - 1) with false
        by (symmetry; apply Z.eqb_neq; lia).
      reflexivity.
Qed.

(** ** The further properties at work on the example data *)








(** X23 on the full house, when another task disconnects connection
    [3] during the first send: the broadcast raises [RuntimeError] and a
    key change was counted. *)
Lemma broadcast_raises_only_when_disturbed_witness :
  fst (Concurrent._send_to_all Examples.leaving Examples.lossy
         (fun _ _ => Some "doors open"%string)
         (Examples.scene Examples.full_house))
  = inl Websocket.RuntimeError
  /\ (Concurrent.key_changes (Examples.scene Examples.full_house)
      < Concurrent.key_changes
          (snd (Concurrent._send_to_all Examples.leaving Examples.lossy
                  (fun _ _ => Some "doors open"%string)
                  (Examples.scene Examples.full_house))))%nat.
Proof.
  destruct (proj1 (broadcast_raises_only_when_disturbed Examples.leaving
                     Examples.lossy (Examples.scene Examples.full_house))
              (fun _ _ => Some "doors open"%string)) as [Hret | Hraise].
  - discriminate Hret.
  - exact Hraise.
Defined.

(** X8 on the full house: what is sent to the viewer [2] is the viewer
    page. *)
Lemma broadcast_schedule_keeps_roles_apart_witness :
  HubSpec.distinct_keys (HubSpec.live Examples.full_house)
  /\ In (2%nat, false) (HubSpec.live Examples.full_house)
  /\ In (Websocket.SendText 2 "viewer page" false)
        (HubSpec.events_since Examples.full_house
           (snd (Websocket.broadcast_schedule Examples.lossy
                   "viewer page" "editor page" Examples.full_house)))
  /\ "viewer page"%string = (if false then "editor page" else "viewer page")%string.
Proof.
  assert (Hd : HubSpec.distinct_keys (HubSpec.live Examples.full_house)).
  { constructor; [simpl; intuition discriminate |].
    constructor; [simpl; intuition discriminate |].
    constructor; [simpl; tauto | constructor]. }
  assert (Hin : In (2%nat, false) (HubSpec.live Examples.full_house))
    by (left; reflexivity).
  assert (Hsent : In (Websocket.SendText 2 "viewer page" false)
                     (HubSpec.events_since Examples.full_house
                        (snd (Websocket.broadcast_schedule Examples.lossy
                                "viewer page" "editor page"
                                Examples.full_house))))
    by (left; reflexivity).
  split; [exact Hd |]. split; [exact Hin |]. split; [exact Hsent |].
  exact (broadcast_schedule_keeps_roles_apart Examples.lossy
           Examples.full_house "viewer page" "editor page" 2%nat false
           "viewer page" false Hd Hin Hsent).
Defined.

(** X10 on an hour, two minutes and five seconds. *)
Lemma format_duration_drops_seconds_witness :
  Slip.format_duration 3725 = Slip.format_duration 3720.
Proof.
  apply (proj1 format_duration_drops_seconds 3725). lia.
Defined.

(** X11 on a text that the plain built-ins read. *)
Lemma parse_time_is_careful_witness :
  @Sheets._parse_time Sheets.Plain.builtins "20:07"
  = Returns (Some (Examples.at_time 20 7 0))
  /\ StoreSpec.hour_minute_valid (Examples.at_time 20 7 0).
Proof.
  split; [reflexivity |].
  apply (proj1 (proj2 (proj2 (@parse_time_is_careful Sheets.Plain.builtins
                                "20:07")))
           (Examples.at_time 20 7 0) eq_refl).
Defined.

(** X12 on the unordered sheet with its first five rows blanked. *)
Lemma get_schedule_skips_header_witness :
  @Sheets.get_schedule Sheets.Plain.builtins Examples.unordered_sheet
  = @Sheets.get_schedule Sheets.Plain.builtins
      (repeat Examples.blank 5 ++ skipn 5 Examples.unordered_sheet).
Proof.
  exact (proj1 (@get_schedule_skips_header Sheets.Plain.builtins)
           (firstn 5 Examples.unordered_sheet) (repeat Examples.blank 5)
           (skipn 5 Examples.unordered_sheet) eq_refl eq_refl).
Defined.

(** X13 on the unordered sheet: the early show is among its two acts,
    and the second data row holds it. *)
Lemma get_schedule_acts_come_from_rows_witness :
  @Sheets.get_schedule Sheets.Plain.builtins Examples.unordered_sheet
  = Returns [Examples.late_show; Examples.early_show]
  /\ exists row,
      In row (skipn 5 Examples.unordered_sheet)
      /\ act_name Examples.early_show
         = Sheets._get_cell row Sheets.COL_ARTIST_NAME.
Proof.
  split; [reflexivity |].
  destruct (proj1 (@get_schedule_acts_come_from_rows Sheets.Plain.builtins
                     Examples.unordered_sheet
                     [Examples.late_show; Examples.early_show]
                     Examples.early_show eq_refl)
              (or_intror (or_introl eq_refl)))
    as [row [Hin [Hname _]]].
  exists row. split; [exact Hin | exact Hname].
Defined.

(** X22 on a sheet with the hour [2147483648] in a scheduled start:
    the cell cannot be read and the schedule neither. *)
Lemma parse_time_overflow_witness :
  @Sheets._parse_time Sheets.Plain.builtins "2147483648:00"
  = Raises OverflowError
  /\ @Sheets.get_schedule Sheets.Plain.builtins Examples.overflowing_sheet
     = Raises OverflowError.
Proof.
  split; [reflexivity |].
  exact (proj2 (@parse_time_overflow Sheets.Plain.builtins EmptyString)
           (firstn 5 Examples.overflowing_sheet)
           (nth 5 Examples.overflowing_sheet [])
           (skipn 6 Examples.overflowing_sheet)
           eq_refl (or_introl eq_refl)).
Defined.

(** X14 on the unordered sheet. *)
Lemma get_act_finds_first_witness :
  @Sheets.get_act Sheets.Plain.builtins Examples.unordered_sheet "Early Show"
  = Returns (Some Examples.early_show)
  /\ act_name Examples.early_show = "Early Show"%string.
Proof.
  split; [reflexivity |].
  apply (proj1 (@get_act_finds_first Sheets.Plain.builtins
                  Examples.unordered_sheet "Early Show")
           Examples.early_show eq_refl).
Defined.

(** X15 on the unordered sheet: the early show is on row 7. *)
Lemma find_row_finds_first_witness :
  @Sheets._find_row Examples.unordered_sheet "Early Show" = Some 7
  /\ 6 <= 7 <= Z.of_nat (length Examples.unordered_sheet).
Proof.
  split; [reflexivity |].
  apply (proj1 (@find_row_finds_first Sheets.Plain.builtins
                  Examples.unordered_sheet "Early Show") 7 eq_refl).
Defined.

(** X16 on a time with seconds. *)
Lemma parse_format_round_trip_witness :
  @Sheets._parse_time Sheets.Plain.builtins
    (Sheets._format_time (Some Examples.seven_past_eight))
  = Returns (Some (Examples.at_time 20 7 0)).
Proof.
  apply (@parse_format_round_trip Sheets.Plain.builtins
           (Some Examples.seven_past_eight) plain_reads_clock_text).
  intros t0 Heq. inversion Heq. split; simpl; lia.
Defined.

(** X17 on the unordered sheet, which has no act of that name. *)
Lemma updates_of_unknown_act_witness :
  @Sheets.update_actual_start Sheets.Plain.builtins Sheets.Grid.sheets
    Examples.unordered_sheet "Nobody" Examples.seven_past_eight
  = (Returns None, Examples.unordered_sheet).
Proof.
  apply (@updates_of_unknown_act Sheets.Plain.builtins Sheets.Grid.sheets
           Examples.unordered_sheet "Nobody" Examples.seven_past_eight).
  simpl. intros row [<- | [<- | []]]; discriminate.
Defined.

(** X18 on the unordered sheet: the early show starts at seven past
    eight. *)
Lemma updates_read_back_witness :
  fst (@Sheets.update_actual_start Sheets.Plain.builtins Sheets.Grid.sheets
         Examples.unordered_sheet "Early Show" Examples.seven_past_eight)
  = Returns (Some (mk_act "Early Show" (Examples.at_time 20 0 0)
                          (Examples.at_time 21 0 0)
                          (Some (Examples.at_time 20 7 0)) None None)).
Proof.
  assert (Hvalid : StoreSpec.hour_minute_valid Examples.seven_past_eight)
    by (split; simpl; lia).
  destruct (@updates_read_back Sheets.Plain.builtins Sheets.Grid.sheets
              Examples.unordered_sheet "Early Show" Examples.seven_past_eight
              7 Examples.early_show
              [Examples.late_show; Examples.early_show]
              plain_reads_clock_text grid_stores_text
              Hvalid eq_refl eq_refl eq_refl) as [_ [_ [Hstart _]]].
  rewrite Hstart. reflexivity.
Defined.


(** X21 on the unordered sheet: the late show stays as it is before the
    early show, which gets its start. *)
Lemma updates_change_one_act_witness :
  @Sheets.get_schedule Sheets.Plain.builtins
    (@get_all_values Sheets.Grid.sheets Examples.unordered_sheet)
  = Returns [Examples.late_show; Examples.early_show]
  /\ exists earlier later,
      [Examples.late_show; Examples.early_show]
      = earlier ++ Examples.early_show :: later
      /\ @Sheets.get_schedule Sheets.Plain.builtins
           (@get_all_values Sheets.Grid.sheets
              (snd (@Sheets.update_actual_start Sheets.Plain.builtins
                      Sheets.Grid.sheets Examples.unordered_sheet
                      "Early Show" Examples.seven_past_eight)))
         = Returns
             (earlier
              ++ StoreSpec.with_actual_times Examples.early_show
                   (Some (StoreSpec.to_the_minute Examples.seven_past_eight))
                   (actual_end Examples.early_show)
              :: later).
Proof.
  assert (Hvalid : StoreSpec.hour_minute_valid Examples.seven_past_eight)
    by (split; simpl; lia).
  split; [reflexivity |].
  destruct (@updates_change_one_act Sheets.Plain.builtins
              Sheets.Grid.sheets Examples.unordered_sheet "Early Show"
              Examples.seven_past_eight 7 Examples.early_show
              [Examples.late_show; Examples.early_show]
              plain_reads_clock_text grid_stores_text Hvalid
              eq_refl eq_refl eq_refl)
    as [earlier [later [Hsplit [Hstart _]]]].
  exists earlier, later. split; [exact Hsplit | exact Hstart].
Defined.
